(** * Library.py: a console catalogue of books kept in books.json

    A shallow embedding of the program and the proofs of its specification.

    - Python [str] is a Rocq [string] holding the UTF-8 bytes of the text:
      equality and the substring test [in] agree on both views.
    - Python [int] is [Z].
    - A book is the dict built from [Book.__dict__]: the five keys
      id, title, author, year, status, in that order.
    - books.json is represented by what [json.load] makes of it:
      no file, a file [json.load] rejects, or a list of books.
      The bytes of the file, the text that [json.dump] writes and what
      [json.load] reads from a text are in module [Bytes], with the proof
      that the records are the bytes seen through [json.load].
    - Every function of the program is a computation over a [world]:
      the file, the log of the collections written to it, the console,
      and the lines still to be typed by the user.  An exception keeps
      the world it was raised in. *)

From Stdlib Require Import ZArith String Ascii List Lia Bool Sorted.
From Stdlib Require Import DecimalString DecimalZ DecimalPos.
From stdpp Require Import base list sorting.
Import ListNotations.

Local Open Scope string_scope.
Local Open Scope list_scope.

(** ** Python values *)

Module Py.

(** [str(n)] for an int [n]. *)
Definition str_of_int (n : Z) : string := NilZero.string_of_int (Z.to_int n).

(** [needle in hay] for two strs. *)
Fixpoint str_in (needle hay : string) : bool :=
  String.prefix needle hay ||
  match hay with
  | EmptyString => false
  | String _ hay' => str_in needle hay'
  end.

(** An f-string: the concatenation of its pieces. *)
Definition fstr (pieces : list string) : string := String.concat "" pieces.

Definition nl : string := String "010"%char EmptyString.
Definition tab : string := String "009"%char EmptyString.
Definition dq : string := String "034"%char EmptyString.

(** The exceptions that the program can meet. *)
Inductive exn := ValueError | JSONDecodeError | FileNotFoundError | EOFError.

(** [except ValueError]: json.JSONDecodeError is a subclass of ValueError. *)
Definition is_ValueError (e : exn) : bool :=
  match e with
  | ValueError | JSONDecodeError => true
  | FileNotFoundError | EOFError => false
  end.

(** The two builtins whose tables are part of the interpreter:
    [s.lower()] and [int(s)]; [int_of_str s = None] stands for the
    ValueError that [int] raises on [s]. *)
Class builtins := {
  str_lower : string -> string;
  int_of_str : string -> option Z
}.

End Py.
Export Py.

(** ** The data model *)

Record book := Book {
  id : Z;
  title : string;
  author : string;
  year : Z;
  status : string
}.

(** [book['status'] = new_status] *)
Definition set_status (new_status : string) (b : book) : book :=
  {| id := id b; title := title b; author := author b; year := year b;
     status := new_status |}.

Inductive file :=
| Missing
| Garbled
| Stored (books : list book).

Record world := World {
  disk : file;
  writes : list (list book);
  console : list string;
  stdin : list string
}.

(** The collection that a reader of the file obtains. *)
Definition collection (f : file) : option (list book) :=
  match f with
  | Missing => Some []
  | Garbled => None
  | Stored books => Some books
  end.

(** ** Computations *)

Inductive outcome (A : Type) :=
| Returned (a : A)
| Raised (e : exn).
Arguments Returned {A} a.
Arguments Raised {A} e.

Definition M (A : Type) : Type := world -> outcome A * world.

Definition ret {A} (a : A) : M A := fun w => (Returned a, w).

Definition raise {A} (e : exn) : M A := fun w => (Raised e, w).

Definition bind {A B} (m : M A) (k : A -> M B) : M B :=
  fun w =>
    match m w with
    | (Returned a, w') => k a w'
    | (Raised e, w') => (Raised e, w')
    end.

(** [try: m  except <class>: handler] *)
Definition try_except {A} (m : M A) (class : exn -> bool) (handler : M A) : M A :=
  fun w =>
    match m w with
    | (Returned a, w') => (Returned a, w')
    | (Raised e, w') => if class e then handler w' else (Raised e, w')
    end.

Notation "'let*' x ':=' m 'in' k" := (bind m (fun x => k))
  (at level 10, x name, m at level 100, k at level 200, only parsing).
Notation "'do' m 'then' k" := (bind m (fun _ => k))
  (at level 10, m at level 100, k at level 200, only parsing).

(** ** The console and the file *)

Definition print (s : string) : M unit :=
  fun w => (Returned tt,
            {| disk := disk w; writes := writes w;
               console := console w ++ [s]; stdin := stdin w |}).

Fixpoint print_each {A} (render : A -> string) (l : list A) : M unit :=
  match l with
  | [] => ret tt
  | x :: l' => do print (render x) then print_each render l'
  end.

Definition input (prompt : string) : M string :=
  fun w =>
    let w' := {| disk := disk w; writes := writes w;
                 console := console w ++ [prompt]; stdin := stdin w |} in
    match stdin w with
    | [] => (Raised EOFError, w')
    | line :: rest =>
        (Returned line,
         {| disk := disk w; writes := writes w;
            console := console w ++ [prompt]; stdin := rest |})
    end.

(** [os.path.exists('books.json')] *)
Definition os_path_exists : M bool :=
  fun w => (Returned (match disk w with Missing => false | _ => true end), w).

(** [with open('books.json', 'r') as file: json.load(file)] *)
Definition json_load : M (list book) :=
  fun w =>
    match disk w with
    | Missing => (Raised FileNotFoundError, w)
    | Garbled => (Raised JSONDecodeError, w)
    | Stored books => (Returned books, w)
    end.

(** [with open('books.json', 'w') as file: json.dump(books, file, ...)] *)
Definition json_dump (books : list book) : M unit :=
  fun w => (Returned tt,
            {| disk := Stored books; writes := writes w ++ [books];
               console := console w; stdin := stdin w |}).

(** ** The program *)

Section Program.

Context {py : builtins}.

Definition default_status : string := "В наличии".

(** [max(book['id'] for book in books)] on a list that is not empty. *)
Definition max_id (first : book) (others : list book) : Z :=
  fold_left Z.max (map id others) (id first).

Definition get_next_id : M Z :=
  let* present := os_path_exists in
  if negb present then ret 1%Z
  else
    let* books := json_load in
    match books with
    | first :: others => ret (max_id first others + 1)%Z
    | [] => ret 1%Z
    end.

Definition Book_init (title author : string) (year : Z) (status : string) : M book :=
  let* next := get_next_id in
  ret {| id := next; title := title; author := author; year := year;
         status := status |}.

Definition load_books : M (list book) :=
  let* present := os_path_exists in
  if negb present then ret [] else json_load.

Definition save_books (books : list book) : M unit := json_dump books.

Definition msg_added (title : string) : string :=
  fstr [nl; "Вы добавили книгу "; dq; title; dq; " в библиотеку"].

Definition add_book (title author : string) (year : Z) : M unit :=
  let* books := load_books in
  let* new_book := Book_init title author year default_status in
  do save_books (books ++ [new_book]) then
  print (msg_added title).

Definition msg_not_found (book_id : Z) : string :=
  fstr ["Книга с ID "; str_of_int book_id; " не найдена."].

Definition msg_deleted (book_id : Z) : string :=
  fstr ["Книга с ID "; str_of_int book_id; " удалена успешно."].

Definition delete_book (book_id : Z) : M unit :=
  let* books := load_books in
  let update_books := List.filter (fun book => negb (id book =? book_id)%Z) books in
  if (length update_books =? length books)%nat then
    print (msg_not_found book_id)
  else
    do save_books update_books then
    print (msg_deleted book_id).

(** The condition of the comprehension of [search_book]. *)
Definition search_test (query : string) (book : book) : bool :=
  str_in (str_lower query) (str_lower (title book)) ||
  str_in (str_lower query) (str_lower (author book)) ||
  String.eqb query (str_of_int (year book)).

Definition search_results (query : string) (books : list book) : list book :=
  List.filter (search_test query) books.

Definition show_book (book : book) : string :=
  fstr [" "; tab; "ID книги: "; str_of_int (id book); nl;
        " "; tab; "Название книги: "; title book; nl;
        " "; tab; "Автор: "; author book; nl;
        " "; tab; "Год издания: "; str_of_int (year book); nl; " ";
        " "; tab; "Статус: "; status book; nl].

Definition msg_no_results : string := "Книги не найдены.".

Definition search_book (query : string) : M unit :=
  let* books := load_books in
  let results := search_results query books in
  match results with
  | _ :: _ => print_each show_book results
  | [] => print msg_no_results
  end.

Definition display_books : M unit :=
  let* books := load_books in
  match books with
  | _ :: _ =>
      do print "Список книг в библиотеке: " then
      print_each show_book books
  | [] => print "В библиотеке пока нет книг"
  end.

Definition valid_statuses : list string := ["в наличии"; "выдана"].

(** [new_status in ["в наличии", "выдана"]] *)
Definition valid_status (new_status : string) : bool :=
  existsb (String.eqb new_status) valid_statuses.

Definition msg_status_updated (book_id : Z) (new_status : string) : string :=
  fstr ["Статус книги с ID "; str_of_int book_id; " обновлен на ";
        dq; new_status; dq; "."].

Definition msg_bad_status : string :=
  fstr ["Ошибка: статус должен быть "; dq; "в наличии"; dq; " или ";
        dq; "выдана"; dq; "."].

(** The [for book in books] loop of [update_status]: [todo] is what is left
    to visit and [i] the position of its head in [books]; the loop body
    writes through [book] into [books] itself. *)
Fixpoint update_status_scan (book_id : Z) (new_status : string)
    (books : list book) (i : nat) (todo : list book) : M unit :=
  match todo with
  | [] => print (msg_not_found book_id)
  | book :: todo' =>
      if (id book =? book_id)%Z then
        if valid_status new_status then
          do save_books (<[i := set_status new_status book]> books) then
          print (msg_status_updated book_id new_status)
        else
          print msg_bad_status
      else update_status_scan book_id new_status books (S i) todo'
  end.

Definition update_status (book_id : Z) (new_status : string) : M unit :=
  let* books := load_books in
  update_status_scan book_id new_status books 0 books.

(** [int(input(prompt))] *)
Definition input_int (prompt : string) : M Z :=
  let* line := input prompt in
  match int_of_str line with
  | Some n => ret n
  | None => raise ValueError
  end.

Definition menu : list string :=
  [ fstr [nl; "Доступные действия: "];
    "1. Добавить книгу";
    "2. Удалить книгу";
    "3. Найти книгу";
    "4. Отобразить все книги";
    "5. Изменить статус книги";
    "6. Выход" ].

(** The [if]/[elif] chain of the loop body of [main]; [false] stands for
    [break]. *)
Definition dispatch (choice : string) : M bool :=
  if String.eqb choice "1" then
    let* title := input "Введите название книги: " in
    let* author := input "Введите автора книги: " in
    let* year := input_int "Введите год издания: " in
    do add_book title author year then
    ret true
  else if String.eqb choice "2" then
    do try_except
         (let* book_id := input_int "Введите id книги, которую хотите удалить: " in
          delete_book book_id)
         is_ValueError
         (print "Ошибка: введите корректный ID.") then
    ret true
  else if String.eqb choice "3" then
    let* query := input "Введите название, автора или год для поиска: " in
    do search_book query then
    ret true
  else if String.eqb choice "4" then
    do display_books then
    ret true
  else if String.eqb choice "5" then
    do try_except
         (let* book_id := input_int "Введите ID книги для изменения статуса: " in
          let* new_status := input "Введите новый статус (в наличии/выдана): " in
          update_status book_id new_status)
         is_ValueError
         (print "Ошибка: введите корректный числовой ID.") then
    ret true
  else if String.eqb choice "6" then
    do print (fstr ["Работа с библиотекой звершена. "; nl; "Хорошего Вам дня."]) then
    ret false
  else
    do print "*Такого действия пока нет, попробуйте другое*" then
    ret true.

(** One turn of the [while True] loop of [main]. *)
Definition main_turn : M bool :=
  do print_each (fun s => s) menu then
  let* choice := input (fstr [nl; "Введите номер действия: "]) in
  dispatch choice.

(** The loop, unrolled at most [fuel] times; [None] when [fuel] turns were
    not enough to reach the exit or an exception. *)
Fixpoint main_loop (fuel : nat) (w : world) : option (outcome unit * world) :=
  match fuel with
  | O => None
  | S fuel' =>
      match main_turn w with
      | (Returned true, w') => main_loop fuel' w'
      | (Returned false, w') => Some (Returned tt, w')
      | (Raised e, w') => Some (Raised e, w')
      end
  end.

Definition main (fuel : nat) (w : world) : option (outcome unit * world) :=
  match print (fstr [nl; "Вас приветствует система управления библиотекой."]) w with
  | (_, w') => main_loop fuel w'
  end.

End Program.

(** ** A table for the builtins

    [str.lower] on ASCII and on the Cyrillic letters U+0400 to U+042F
    (all other code points are left as they are), and [int] on ASCII text:
    surrounding white space, an optional sign, decimal digits with single
    underscores between them. *)

Module Table.

Definition byte_in (lo hi : nat) (c : ascii) : bool :=
  (lo <=? nat_of_ascii c)%nat && (nat_of_ascii c <=? hi)%nat.

Definition shift (c : ascii) (up down : nat) : ascii :=
  ascii_of_nat (nat_of_ascii c + up - down).

Fixpoint lower (s : string) : string :=
  match s with
  | EmptyString => EmptyString
  | String c s' =>
      if byte_in 65 90 c then String (shift c 32 0) (lower s')
      else
        match s' with
        | String c2 s'' =>
            if byte_in 208 208 c then
              if byte_in 128 143 c2 then
                String (ascii_of_nat 209) (String (shift c2 16 0) (lower s''))
              else if byte_in 144 159 c2 then
                String c (String (shift c2 32 0) (lower s''))
              else if byte_in 160 175 c2 then
                String (ascii_of_nat 209) (String (shift c2 0 32) (lower s''))
              else String c (String c2 (lower s''))
            else String c (lower s')
        | EmptyString => String c EmptyString
        end
  end.

Definition is_space (c : ascii) : bool :=
  byte_in 9 13 c || byte_in 28 32 c.

Fixpoint lstrip (s : string) : string :=
  match s with
  | String c s' => if is_space c then lstrip s' else s
  | EmptyString => EmptyString
  end.

Definition reverse (s : string) : string :=
  string_of_list_ascii (rev (list_ascii_of_string s)).

Definition strip (s : string) : string :=
  reverse (lstrip (reverse (lstrip s))).

Fixpoint digits (acc : Z) (after_digit : bool) (s : string) : option Z :=
  match s with
  | EmptyString => if after_digit then Some acc else None
  | String c s' =>
      if byte_in 48 57 c then
        digits (10 * acc + Z.of_nat (nat_of_ascii c - 48))%Z true s'
      else if byte_in 95 95 c && after_digit then digits acc false s'
      else None
  end.

Definition int (s : string) : option Z :=
  match strip s with
  | String "-" s' => option_map Z.opp (digits 0 false s')
  | String "+" s' => digits 0 false s'
  | s' => digits 0 false s'
  end.

End Table.

#[export] Instance table_builtins : builtins :=
  {| str_lower := Table.lower; int_of_str := Table.int |}.

(** ** Worlds to run the program in *)

Definition fresh_world (d : file) (typed : list string) : world :=
  {| disk := d; writes := []; console := []; stdin := typed |}.

Definition run {A} (m : M A) (w : world) : world := snd (m w).

Definition one_book : list book :=
  [ {| id := 4; title := "Dune"; author := "Herbert"; year := 1965;
       status := "выдана" |} ].

Definition two_books : list book :=
  [ {| id := 1; title := "1984"; author := "Orwell"; year := 1949;
       status := "В наличии" |};
    {| id := 2; title := "Neuromancer"; author := "Gibson"; year := 1984;
       status := "В наличии" |} ].

Definition two_specs : list (string * string * Z) :=
  [ ("Foundation", "Asimov", 1951%Z); ("Solaris", "Lem", 1961%Z) ].


(** ** Sessions of catalogue operations *)

Inductive op :=
| Add (title author : string) (year : Z)
| Delete (book_id : Z).

Section Sessions.

Definition run_op (o : op) : M unit :=
  match o with
  | Add title author year => add_book title author year
  | Delete book_id => delete_book book_id
  end.

Fixpoint session (ops : list op) : M unit :=
  match ops with
  | [] => ret tt
  | o :: ops' => do run_op o then session ops'
  end.

(** The ids on file, in store order. *)
Definition ids_of (f : file) : list Z :=
  match collection f with
  | Some books => map id books
  | None => []
  end.

(** The id of the record at the end of the file: after an add, the id that
    the add has assigned. *)
Definition newest_id (f : file) : option Z := last (ids_of f).

(** The id that [get_next_id] computes from the collection on file. *)
Definition next_id (books : list book) : Z :=
  match books with
  | [] => 1%Z
  | first :: others => (max_id first others + 1)%Z
  end.

End Sessions.

(** ** What the spec says of search, in its own words *)

Section SearchSpec.

Context {py : builtins}.

Definition is_substring (needle hay : string) : Prop :=
  exists before after, hay = String.append before (String.append needle after).

Definition insensitive_substring (query text : string) : Prop :=
  is_substring (str_lower query) (str_lower text).

Definition matches (query : string) (b : book) : Prop :=
  insensitive_substring query (title b) \/
  insensitive_substring query (author b) \/
  query = str_of_int (year b).

End SearchSpec.

(** ** Names for what the operations compute and leave behind *)

(** The record that [add_book] appends to [books]. *)
Definition new_record (books : list book) (title author : string) (year : Z) : book :=
  {| id := next_id books; title := title; author := author; year := year;
     status := default_status |}.

(** A run of add operations, in order. *)
Fixpoint add_all (specs : list (string * string * Z)) : M unit :=
  match specs with
  | [] => ret tt
  | (title, author, year) :: specs' =>
      do add_book title author year then add_all specs'
  end.

Definition fields (b : book) : string * string * Z := (title b, author b, year b).

(** The comprehension of [delete_book]. *)
Definition without (book_id : Z) (books : list book) : list book :=
  List.filter (fun book => negb (id book =? book_id)%Z) books.

(** Where the loop of [update_status] stops: the first record with the id. *)
Definition first_with_id (book_id : Z) (books : list book) : option (nat * book) :=
  list_find (fun b => id b = book_id) books.

Definition after_update (w : world) (book_id : Z) (new_status : string)
    (books : list book) (i : nat) (target : book) : world :=
  {| disk := Stored (<[i := set_status new_status target]> books);
     writes := writes w ++ [<[i := set_status new_status target]> books];
     console := console w ++ [msg_status_updated book_id new_status];
     stdin := stdin w |}.

Definition after_print (w : world) (s : string) : world :=
  {| disk := disk w; writes := writes w; console := console w ++ [s];
     stdin := stdin w |}.

(** What [search_book] leaves on the console. *)
Definition search_output (results : list book) : list string :=
  match results with
  | [] => [msg_no_results]
  | _ :: _ => map show_book results
  end.

(** No computation of the program puts lines back on the user's input. *)
Definition reads_only {A} (m : M A) : Prop :=
  forall w, length (stdin (snd (m w))) <= length (stdin w).

Definition ask_choice : string := fstr [nl; "Введите номер действия: "].

(** ** The five catalogue operations as one type *)

Inductive action :=
| DoAdd (title author : string) (year : Z)
| DoDelete (book_id : Z)
| DoSearch (query : string)
| DoDisplay
| DoUpdate (book_id : Z) (new_status : string).

Section Actions.

Context {py : builtins}.

Definition perform (a : action) : M unit :=
  match a with
  | DoAdd title author year => add_book title author year
  | DoDelete book_id => delete_book book_id
  | DoSearch query => search_book query
  | DoDisplay => display_books
  | DoUpdate book_id new_status => update_status book_id new_status
  end.

Fixpoint perform_all (acts : list action) : M unit :=
  match acts with
  | [] => ret tt
  | a :: acts' => do perform a then perform_all acts'
  end.

End Actions.

(** What [display_books] leaves on the console. *)
Definition display_output (books : list book) : list string :=
  match books with
  | [] => ["В библиотеке пока нет книг"]
  | _ :: _ => "Список книг в библиотеке: " :: map show_book books
  end.

(** The collection on file after an operation on a file holding [books]. *)
Definition store_after (a : action) (books : list book) : list book :=
  match a with
  | DoAdd title author year => books ++ [new_record books title author year]
  | DoDelete book_id => without book_id books
  | DoSearch _ | DoDisplay => books
  | DoUpdate book_id new_status =>
      match first_with_id book_id books with
      | Some (i, target) =>
          if valid_status new_status
          then <[i := set_status new_status target]> books
          else books
      | None => books
      end
  end.

(** The collections that an operation saves: one at most. *)
Definition saved_by (a : action) (books : list book) : list (list book) :=
  match a with
  | DoAdd _ _ _ => [store_after a books]
  | DoDelete book_id =>
      if (length (without book_id books) =? length books)%nat then []
      else [store_after a books]
  | DoSearch _ | DoDisplay => []
  | DoUpdate book_id new_status =>
      match first_with_id book_id books with
      | Some _ => if valid_status new_status then [store_after a books] else []
      | None => []
      end
  end.

(** Ids in store order are strictly increasing and start at 1 or above. *)
Definition ids_ascending (books : list book) : Prop :=
  StronglySorted Z.lt (map id books) /\ Forall (fun i => (1 <= i)%Z) (map id books).

Definition menu_choices : list string := ["1"; "2"; "3"; "4"; "5"; "6"].

Definition farewell : string :=
  fstr ["Работа с библиотекой звершена. "; nl; "Хорошего Вам дня."].

(** A world and a session to try the properties on. *)
Definition shelf : world := fresh_world (Stored two_books) [].

Definition sample_session : list action :=
  [ DoAdd "Solaris" "Lem" 1961; DoDelete 1; DoUpdate 2 "выдана";
    DoSearch "lem"; DoDisplay ].

Definition typed (lines : list string) (d : file) : world := fresh_world d lines.

(** ** books.json as bytes

    The file is UTF-8 text with the line ends of POSIX.  [json_dumps] is the
    text of [json.dump(books, file, ensure_ascii=False, indent=4)];
    [json_loads] reads the JSON texts that hold a list of books. *)

Module Bytes.

Local Open Scope string_scope.

(** The decoder of UTF-8, as a state: what the bytes seen so far of the
    current code point allow next. *)
Inductive utf8_state :=
| Start          (* between code points *)
| Tail1          (* one byte 80..BF to come *)
| Tail2          (* two bytes 80..BF to come *)
| Tail3          (* three bytes 80..BF to come *)
| AfterE0        (* A0..BF, then one more *)
| AfterED        (* 80..9F, then one more *)
| AfterF0        (* 90..BF, then two more *)
| AfterF4.       (* 80..8F, then two more *)

Definition between (lo hi : nat) (c : ascii) : bool :=
  (lo <=? nat_of_ascii c)%nat && (nat_of_ascii c <=? hi)%nat.

Definition utf8_step (st : utf8_state) (c : ascii) : option utf8_state :=
  match st with
  | Start =>
      if between 0 127 c then Some Start
      else if between 194 223 c then Some Tail1
      else if between 224 224 c then Some AfterE0
      else if between 225 236 c then Some Tail2
      else if between 237 237 c then Some AfterED
      else if between 238 239 c then Some Tail2
      else if between 240 240 c then Some AfterF0
      else if between 241 243 c then Some Tail3
      else if between 244 244 c then Some AfterF4
      else None
  | Tail1 => if between 128 191 c then Some Start else None
  | Tail2 => if between 128 191 c then Some Tail1 else None
  | Tail3 => if between 128 191 c then Some Tail2 else None
  | AfterE0 => if between 160 191 c then Some Tail1 else None
  | AfterED => if between 128 159 c then Some Tail1 else None
  | AfterF0 => if between 144 191 c then Some Tail2 else None
  | AfterF4 => if between 128 143 c then Some Tail2 else None
  end.

Fixpoint utf8_run (st : utf8_state) (s : string) : option utf8_state :=
  match s with
  | EmptyString => Some st
  | String c s' =>
      match utf8_step st c with
      | Some st' => utf8_run st' s'
      | None => None
      end
  end.

(** The bytes are the UTF-8 form of a str. *)
Definition is_str (s : string) : bool :=
  match utf8_run Start s with
  | Some Start => true
  | _ => false
  end.

Definition are_strs (b : book) : bool :=
  is_str (title b) && is_str (author b) && is_str (status b).

Definition quote : ascii := "034"%char.
Definition backslash : ascii := "092"%char.

(** The digit of [n < 16] in lower-case hexadecimal. *)
Definition hex (n : nat) : ascii :=
  if (n <? 10)%nat then ascii_of_nat (48 + n) else ascii_of_nat (87 + n).

(** One character of a str inside a JSON string, as [json.dump] writes it
    with [ensure_ascii=False], in front of [k]. *)
Definition escape_char (c : ascii) (k : string) : string :=
  let n := nat_of_ascii c in
  if (n =? 34)%nat then String backslash (String quote k)
  else if (n =? 92)%nat then String backslash (String backslash k)
  else if (n =? 10)%nat then String backslash (String "n" k)
  else if (n =? 13)%nat then String backslash (String "r" k)
  else if (n =? 9)%nat then String backslash (String "t" k)
  else if (n =? 8)%nat then String backslash (String "b" k)
  else if (n =? 12)%nat then String backslash (String "f" k)
  else if (n <? 32)%nat then
    String backslash (String "u" (String "0" (String "0"
      (String (hex (n / 16)) (String (hex (n mod 16)) k)))))
  else String c k.

Fixpoint put_escaped (s k : string) : string :=
  match s with
  | EmptyString => k
  | String c s' => escape_char c (put_escaped s' k)
  end.

(** A str, an int and a book as JSON text, each in front of [k]. *)
Definition put_str (s k : string) : string :=
  String quote (put_escaped s (String quote k)).

Definition put_int (n : Z) (k : string) : string := str_of_int n ++ k.

Definition put_book (b : book) (k : string) : string :=
  "    {" ++ nl ++
  "        " ++ put_str "id" (": " ++ put_int (id b) ("," ++ nl ++
  "        " ++ put_str "title" (": " ++ put_str (title b) ("," ++ nl ++
  "        " ++ put_str "author" (": " ++ put_str (author b) ("," ++ nl ++
  "        " ++ put_str "year" (": " ++ put_int (year b) ("," ++ nl ++
  "        " ++ put_str "status" (": " ++ put_str (status b) (nl ++
  "    }" ++ k)))))))))).

Fixpoint put_books (first : book) (others : list book) (k : string) : string :=
  put_book first
    match others with
    | [] => nl ++ "]" ++ k
    | b :: bs => "," ++ nl ++ put_books b bs k
    end.

(** [json.dump(books, file, ensure_ascii=False, indent=4)]: the text written. *)
Definition json_dumps (books : list book) : string :=
  match books with
  | [] => "[]"
  | b :: bs => "[" ++ nl ++ put_books b bs ""
  end.

(** JSON white space. *)
Definition is_ws (c : ascii) : bool :=
  let n := nat_of_ascii c in
  (n =? 32)%nat || (n =? 9)%nat || (n =? 10)%nat || (n =? 13)%nat.

Fixpoint skip_ws (s : string) : string :=
  match s with
  | String c s' => if is_ws c then skip_ws s' else s
  | EmptyString => EmptyString
  end.

Definition hex_value (c : ascii) : option nat :=
  let n := nat_of_ascii c in
  if (48 <=? n)%nat && (n <=? 57)%nat then Some (n - 48)
  else if (97 <=? n)%nat && (n <=? 102)%nat then Some (n - 87)
  else if (65 <=? n)%nat && (n <=? 70)%nat then Some (n - 55)
  else None.

(** The character that a backslash and [e] stand for. *)
Definition unescape (e : ascii) : option ascii :=
  let n := nat_of_ascii e in
  if (n =? 34)%nat then Some quote
  else if (n =? 92)%nat then Some backslash
  else if (n =? 47)%nat then Some "/"%char
  else if (n =? 110)%nat then Some (ascii_of_nat 10)
  else if (n =? 114)%nat then Some (ascii_of_nat 13)
  else if (n =? 116)%nat then Some (ascii_of_nat 9)
  else if (n =? 98)%nat then Some (ascii_of_nat 8)
  else if (n =? 102)%nat then Some (ascii_of_nat 12)
  else None.

Definition more (c : ascii) (r : option (string * string)) : option (string * string) :=
  match r with
  | Some (text, rest) => Some (String c text, rest)
  | None => None
  end.

(** A JSON string after its opening quote: the str and what follows the
    closing quote.  Escapes written with u are decoded below U+0080 only. *)
Fixpoint string_body (s : string) : option (string * string) :=
  match s with
  | EmptyString => None
  | String c s' =>
      if Ascii.eqb c quote then Some (EmptyString, s')
      else if Ascii.eqb c backslash then
        match s' with
        | String e s'' =>
            if Ascii.eqb e "u" then
              match s'' with
              | String h1 (String h2 (String h3 (String h4 s4))) =>
                  match hex_value h1, hex_value h2, hex_value h3, hex_value h4 with
                  | Some a, Some b, Some c', Some d =>
                      let v := (((a * 16 + b) * 16 + c') * 16 + d)%nat in
                      if (v <? 128)%nat then more (ascii_of_nat v) (string_body s4)
                      else None
                  | _, _, _, _ => None
                  end
              | _ => None
              end
            else
              match unescape e with
              | Some c' => more c' (string_body s'')
              | None => None
              end
        | EmptyString => None
        end
      else if (nat_of_ascii c <? 32)%nat then None
      else more c (string_body s')
  end.

Definition parse_str (s : string) : option (string * string) :=
  match skip_ws s with
  | String c s' => if Ascii.eqb c quote then string_body s' else None
  | EmptyString => None
  end.

Definition is_digit (c : ascii) : bool :=
  (48 <=? nat_of_ascii c)%nat && (nat_of_ascii c <=? 57)%nat.

Fixpoint span_digits (s : string) : string * string :=
  match s with
  | String c s' =>
      if is_digit c then
        let (digits, rest) := span_digits s' in (String c digits, rest)
      else (EmptyString, s)
  | EmptyString => (EmptyString, EmptyString)
  end.

Definition span_int (s : string) : string * string :=
  match s with
  | String c s' =>
      if Ascii.eqb c "-" then
        let (digits, rest) := span_digits s' in (String c digits, rest)
      else span_digits s
  | EmptyString => (EmptyString, EmptyString)
  end.

(** A JSON integer: an optional minus sign and decimal digits without a
    leading zero. *)
Definition parse_int (s : string) : option (Z * string) :=
  let (text, rest) := span_int (skip_ws s) in
  match NilZero.int_of_string text with
  | Some d =>
      if String.eqb (str_of_int (Z.of_int d)) text || String.eqb text "-0"
      then Some (Z.of_int d, rest)
      else None
  | None => None
  end.

Definition expect (c : ascii) (s : string) : option string :=
  match skip_ws s with
  | String c' s' => if Ascii.eqb c' c then Some s' else None
  | EmptyString => None
  end.

Definition parse_key (key : string) (s : string) : option string :=
  '(found, rest) ← parse_str s;
  if String.eqb found key then expect ":" rest else None.

(** One object with the five keys of a book, in the order of [Book.__dict__]. *)
Definition parse_book (s : string) : option (book * string) :=
  s ← expect "{" s;
  s ← parse_key "id" s; '(id', s) ← parse_int s; s ← expect "," s;
  s ← parse_key "title" s; '(title', s) ← parse_str s; s ← expect "," s;
  s ← parse_key "author" s; '(author', s) ← parse_str s; s ← expect "," s;
  s ← parse_key "year" s; '(year', s) ← parse_int s; s ← expect "," s;
  s ← parse_key "status" s; '(status', s) ← parse_str s;
  s ← expect "}" s;
  Some ({| id := id'; title := title'; author := author'; year := year';
           status := status' |}, s).

(** The objects of an array that is not empty, up to its closing bracket. *)
Fixpoint parse_books (fuel : nat) (s : string) : option (list book * string) :=
  match fuel with
  | O => None
  | S fuel' =>
      '(b, s) ← parse_book s;
      match skip_ws s with
      | String c s' =>
          if Ascii.eqb c "," then
            '(bs, rest) ← parse_books fuel' s'; Some (b :: bs, rest)
          else if Ascii.eqb c "]" then Some ([b], s')
          else None
      | EmptyString => None
      end
  end.

(** The JSON document in [text]. *)
Definition parse_document (text : string) : option (list book) :=
  s ← expect "[" text;
  '(books, rest) ←
    match skip_ws s with
    | String c s' =>
        if Ascii.eqb c "]" then Some ([], s') else parse_books (String.length text) s
    | EmptyString => None
    end;
  match skip_ws rest with
  | EmptyString => Some books
  | String _ _ => None
  end.

(** [json.load] on a file opened with [encoding='utf-8'], for the files
    that hold a list of books: [None] when reading raises (bytes that are
    not UTF-8, text that is not JSON), and also when [json.load] returns
    something that is no list of objects with the five keys in this order
    (there the model stops). *)
Definition json_loads (text : string) : option (list book) :=
  if is_str text then parse_document text else None.

(** [load_books] and [save_books] on the bytes of the file: [None] when there
    is no books.json, else its text.  The result [None] of [load_books] is
    that of [json_loads]. *)
Definition load_books (f : option string) : option (list book) :=
  match f with
  | None => Some []
  | Some text => json_loads text
  end.

Definition save_books (books : list book) (f : option string) : option string :=
  Some (json_dumps books).

(** [save_books(load_books())] *)
Definition resave (f : option string) : option (option string) :=
  books ← load_books f; Some (save_books books f).

End Bytes.

(** What may follow the digits of an int. *)
Definition ends_number (k : string) : Prop :=
  match k with
  | String c _ => Bytes.is_digit c = false
  | EmptyString => True
  end.



(** The file and the record store: what [json.load] makes of the bytes. *)
Definition decodes (f : option string) (d : file) : Prop :=
  match f with
  | None => d = Missing
  | Some text => exists books, Bytes.json_loads text = Some books /\ d = Stored books
  end.

(** ** Three readings of the specification that the program does not meet *)

(** The claim that a deleted id never comes back: in a session on one and
    the same file, [d] is on file, is deleted, and after any further
    operations an add takes place; the id of the added record is not [d]. *)
Definition deleted_ids_never_return : Prop :=
  forall (w : world) (before : list op) (d : Z) (between : list op)
         (title author : string) (year : Z),
    let w1 := run (session before) w in
    let w2 := run (session (Delete d :: between)) w1 in
    let w3 := run (add_book title author year) w2 in
    d ∈ ids_of (disk w1) ->
    newest_id (disk w3) <> Some d.

(** The claim that a status outside the two valid ones always gets the
    validation message, whatever the id. *)
Definition bad_status_always_reported : Prop :=
  forall (w : world) (books : list book) (book_id : Z) (new_status : string),
    collection (disk w) = Some books ->
    valid_status new_status = false ->
    disk (run (update_status book_id new_status) w) = disk w /\
    writes (run (update_status book_id new_status) w) = writes w /\
    console (run (update_status book_id new_status) w) =
      console w ++ [msg_bad_status].

(** The claim that a query equal to the year of a record of the store
    finds the records of that year and no other. *)
Definition year_query_finds_only_that_year : Prop :=
  forall (books : list book) (b : book),
    b ∈ books ->
    search_results (py := table_builtins) (str_of_int (year b)) books =
    List.filter (fun b' => (year b' =? year b)%Z) books.

(** * Proofs *)

(** ** The scenario of the specification, run on the model *)

Example scenario_store :
  disk (run (do add_book "Dune" "Herbert" 1965 then
             do add_book "Foundation" "Asimov" 1951 then
             do delete_book 1 then
             update_status 2 "выдана")
            (fresh_world Missing [])) =
  Stored [ {| id := 2; title := "Foundation"; author := "Asimov"; year := 1951;
              status := "выдана" |} ].
Proof. reflexivity. Qed.

Example scenario_search :
  search_results "asimov"
    [ {| id := 2; title := "Foundation"; author := "Asimov"; year := 1951;
         status := "выдана" |} ] =
    [ {| id := 2; title := "Foundation"; author := "Asimov"; year := 1951;
         status := "выдана" |} ] /\
  search_results "herbert"
    [ {| id := 2; title := "Foundation"; author := "Asimov"; year := 1951;
         status := "выдана" |} ] = [].
Proof. split; reflexivity. Qed.

Example main_session :
  option_map (fun r => (fst r, disk (snd r), stdin (snd r)))
    (main 4 (fresh_world Missing
               ["1"; "Dune"; "Herbert"; "1965"; "2"; "one"; "5"; "1"; "выдана"; "6"])) =
  Some (Returned tt,
        Stored [ {| id := 1; title := "Dune"; author := "Herbert"; year := 1965;
                    status := "выдана" |} ],
        []).
Proof. reflexivity. Qed.

(** ** Strings *)

Section Strings.

Lemma prefix_append (p s : string) :
  String.prefix p s = true <-> exists rest, s = String.append p rest.
Proof.
  revert s; induction p as [|c p IH]; intros [|c' s]; simpl.
  - split; [intros _; exists EmptyString; reflexivity | reflexivity].
  - split; [intros _; exists (String c' s); reflexivity | reflexivity].
  - split; [discriminate | intros [rest Hr]; discriminate].
  - destruct (Ascii.ascii_dec c c') as [->|Hne].
    + rewrite IH. split; intros [rest Hr]; exists rest; congruence.
    + split; [discriminate | intros [rest Hr]; congruence].
Qed.

Lemma str_in_substring (needle hay : string) :
  str_in needle hay = true <-> is_substring needle hay.
Proof.
  unfold is_substring.
  induction hay as [|c hay IH]; cbn [str_in].
  - rewrite orb_false_r, prefix_append. split.
    + intros [rest Hr]. exists EmptyString, rest. exact Hr.
    + intros [[|c before] [after Hr]]; [exists after; exact Hr | discriminate].
  - rewrite orb_true_iff, prefix_append, IH. split.
    + intros [[rest Hr] | [before [after Hr]]].
      * exists EmptyString, rest. exact Hr.
      * exists (String c before), after. simpl. congruence.
    + intros [[|c' before] [after Hr]].
      * left. exists after. exact Hr.
      * right. exists before, after. simpl in Hr. congruence.
Qed.

Lemma str_of_int_inj (m n : Z) : str_of_int m = str_of_int n -> m = n.
Proof.
  unfold str_of_int. intros Heq.
  assert (Hnorm : forall z, NilZero.int_of_string (NilZero.string_of_int (Z.to_int z))
                            = Some (Z.to_int z)).
  { intros z. apply NilZero.isi; destruct z; simpl; try discriminate;
      intros Hbad; inversion Hbad as [Hnil];
      pose proof (DecimalPos.Unsigned.to_uint_nonnil p); congruence. }
  pose proof (Hnorm m) as Hm. rewrite Heq, Hnorm in Hm.
  inversion Hm as [Hto]. symmetry. exact (DecimalZ.to_int_inj _ _ Hto).
Qed.

Lemma eqb_str_of_int (m n : Z) :
  String.eqb (str_of_int m) (str_of_int n) = (n =? m)%Z.
Proof.
  destruct (Z.eqb_spec n m) as [->|Hne].
  - apply String.eqb_refl.
  - apply String.eqb_neq. intros Heq. apply Hne. symmetry.
    exact (str_of_int_inj _ _ Heq).
Qed.

End Strings.

(** ** The record store and the ids *)

Section Store.

Lemma load_books_run (w : world) :
  load_books w =
  (match collection (disk w) with
   | Some books => Returned books
   | None => Raised JSONDecodeError
   end, w).
Proof.
  unfold load_books, bind, os_path_exists, json_load, ret.
  destruct (disk w) eqn:Hdisk; simpl; rewrite ?Hdisk; reflexivity.
Qed.

Lemma get_next_id_run (w : world) :
  get_next_id w =
  (match collection (disk w) with
   | Some books => Returned (next_id books)
   | None => Raised JSONDecodeError
   end, w).
Proof.
  unfold get_next_id, bind, os_path_exists, json_load, ret.
  destruct (disk w) as [| |[|first others]] eqn:Hdisk; simpl; rewrite ?Hdisk;
    reflexivity.
Qed.

Lemma fold_max_bounds (xs : list Z) (a : Z) :
  (a <= fold_left Z.max xs a)%Z /\
  Forall (fun x => x <= fold_left Z.max xs a)%Z xs.
Proof.
  revert a; induction xs as [|x xs IH]; intros a; simpl.
  - split; [lia | constructor].
  - destruct (IH (Z.max a x)) as [Hacc Hall]. split; [lia|].
    constructor; [lia | exact Hall].
Qed.

Lemma next_id_above (books : list book) (b : book) :
  b ∈ books -> (id b < next_id books)%Z.
Proof.
  destruct books as [|first others]; [intros Hin; inversion Hin|].
  intros Hin. unfold next_id, max_id.
  destruct (fold_max_bounds (map id others) (id first)) as [Hfirst Hothers].
  apply elem_of_cons in Hin as [->|Hin]; [lia|].
  rewrite Forall_forall in Hothers.
  assert (id b <= fold_left Z.max (map id others) (id first))%Z; [|lia].
  apply Hothers, list_elem_of_fmap. exists b. split; [reflexivity | exact Hin].
Qed.

Lemma add_book_run (w : world) (books : list book) (title author : string) (year : Z) :
  collection (disk w) = Some books ->
  add_book title author year w =
  (Returned tt,
   {| disk := Stored (books ++ [new_record books title author year]);
      writes := writes w ++ [books ++ [new_record books title author year]];
      console := console w ++ [msg_added title];
      stdin := stdin w |}).
Proof.
  intros Hdisk. unfold add_book, Book_init, bind.
  rewrite load_books_run, get_next_id_run, Hdisk. reflexivity.
Qed.

Lemma add_book_garbled (w : world) (title author : string) (year : Z) :
  collection (disk w) = None ->
  add_book title author year w = (Raised JSONDecodeError, w).
Proof.
  intros Hdisk. unfold add_book, bind. rewrite load_books_run, Hdisk. reflexivity.
Qed.

Lemma new_id_fresh (books : list book) (title author : string) (year : Z) :
  NoDup (map id books) ->
  NoDup (map id (books ++ [new_record books title author year])).
Proof.
  intros Hnodup. rewrite map_app. apply NoDup_app. split; [exact Hnodup|].
  split; [|apply NoDup_singleton].
  intros i Hi Hnew. apply list_elem_of_fmap in Hi as [b [-> Hb]].
  apply next_id_above in Hb. simpl in Hnew.
  apply list_elem_of_singleton in Hnew. lia.
Qed.

End Store.

Section Ids.

(** C7. Any run of add operations, from any store that can be read, gives
    the new books strictly increasing ids, in the order of the adds, all
    above the ids already on file; and a store whose ids are pairwise
    distinct stays so. *)
Theorem add_all_ids_increasing (specs : list (string * string * Z))
    (w : world) (books : list book) :
  collection (disk w) = Some books ->
  exists news,
    fst (add_all specs w) = Returned tt /\
    collection (disk (run (add_all specs) w)) = Some (books ++ news) /\
    map fields news = specs /\
    StronglySorted Z.lt (map id news) /\
    (forall old new, old ∈ books -> new ∈ news -> (id old < id new)%Z) /\
    (NoDup (map id books) -> NoDup (map id (books ++ news))).
Proof.
  revert w books.
  induction specs as [|[[title author] year] specs IH]; intros w books Hdisk.
  - exists []. unfold run. simpl. rewrite app_nil_r.
    split; [reflexivity|]. split; [exact Hdisk|]. split; [reflexivity|].
    split; [constructor|]. split; [|tauto].
    intros old new _ Hnew. inversion Hnew.
  - set (b := new_record books title author year).
    pose proof (add_book_run w books title author year Hdisk) as Hadd.
    fold b in Hadd.
    destruct (IH (run (add_book title author year) w) (books ++ [b]))
      as (news & Hret & Hcoll & Hfields & Hsorted & Habove & Hnodup).
    { unfold run. rewrite Hadd. reflexivity. }
    exists (b :: news).
    assert (Hstep : add_all ((title, author, year) :: specs) w =
                    add_all specs (run (add_book title author year) w)).
    { unfold run. simpl. unfold bind. rewrite Hadd. reflexivity. }
    unfold run at 1. rewrite Hstep. fold (run (add_all specs)
      (run (add_book title author year) w)).
    repeat split.
    + exact Hret.
    + rewrite Hcoll, <- app_assoc. reflexivity.
    + simpl. rewrite Hfields. reflexivity.
    + simpl. constructor; [exact Hsorted|].
      apply Forall_forall. intros i Hi.
      apply list_elem_of_fmap in Hi as [new [-> Hnew]].
      apply (Habove b new); [|exact Hnew].
      apply elem_of_app. right. apply list_elem_of_singleton. reflexivity.
    + intros old new Hold Hnew.
      apply elem_of_cons in Hnew as [->|Hnew].
      * apply next_id_above. exact Hold.
      * apply Habove; [|exact Hnew]. apply elem_of_app. left. exact Hold.
    + intros Hbooks.
      replace (books ++ b :: news) with ((books ++ [b]) ++ news)
        by (rewrite <- app_assoc; reflexivity).
      apply Hnodup, new_id_fresh, Hbooks.
Qed.

Lemma add_all_ids_increasing_witness :
  collection (disk (fresh_world (Stored one_book) [])) = Some one_book /\
  exists news,
    fst (add_all two_specs (fresh_world (Stored one_book) [])) = Returned tt /\
    collection (disk (run (add_all two_specs) (fresh_world (Stored one_book) []))) =
      Some (one_book ++ news) /\
    map fields news = two_specs /\
    StronglySorted Z.lt (map id news) /\
    (forall old new, old ∈ one_book -> new ∈ news -> (id old < id new)%Z) /\
    (NoDup (map id one_book) -> NoDup (map id (one_book ++ news))).
Proof.
  split; [reflexivity|].
  apply (add_all_ids_increasing two_specs (fresh_world (Stored one_book) []) one_book).
  reflexivity.
Defined.

End Ids.

(** ** Delete *)

Section Delete.

Lemma filter_all_kept {A} (f : A -> bool) (l : list A) :
  length (List.filter f l) = length l <-> (forall x, x ∈ l -> f x = true).
Proof.
  induction l as [|x l IH]; simpl.
  - split; [intros _ y Hy; inversion Hy | reflexivity].
  - destruct (f x) eqn:Hfx; simpl.
    + split.
      * intros Hlen y Hy. apply elem_of_cons in Hy as [->|Hy]; [exact Hfx|].
        apply IH; [lia | exact Hy].
      * intros Hall. f_equal. apply IH. intros y Hy. apply Hall.
        apply elem_of_cons. right. exact Hy.
    + pose proof (filter_length_le f l) as Hle. split; [lia|].
      intros Hall. specialize (Hall x). rewrite Hfx in Hall.
      discriminate Hall. apply elem_of_cons. left. reflexivity.
Qed.

Lemma without_all_kept (book_id : Z) (books : list book) :
  length (without book_id books) = length books <-> book_id ∉ map id books.
Proof.
  unfold without. rewrite filter_all_kept. split.
  - intros Hall Hin. apply list_elem_of_fmap in Hin as [b [-> Hb]].
    specialize (Hall b Hb). rewrite Z.eqb_refl in Hall. discriminate.
  - intros Hnot b Hb. apply negb_true_iff, Z.eqb_neq. intros Heq.
    apply Hnot, list_elem_of_fmap. exists b. split; [congruence | exact Hb].
Qed.

Lemma delete_book_absent (w : world) (books : list book) (book_id : Z) :
  collection (disk w) = Some books ->
  book_id ∉ map id books ->
  delete_book book_id w =
  (Returned tt,
   {| disk := disk w; writes := writes w;
      console := console w ++ [msg_not_found book_id]; stdin := stdin w |}).
Proof.
  intros Hdisk Habsent. unfold delete_book, bind.
  rewrite load_books_run, Hdisk. fold (without book_id books).
  apply without_all_kept in Habsent. apply Nat.eqb_eq in Habsent.
  rewrite Habsent. reflexivity.
Qed.

Lemma delete_book_present (w : world) (books : list book) (book_id : Z) :
  collection (disk w) = Some books ->
  book_id ∈ map id books ->
  delete_book book_id w =
  (Returned tt,
   {| disk := Stored (without book_id books);
      writes := writes w ++ [without book_id books];
      console := console w ++ [msg_deleted book_id]; stdin := stdin w |}).
Proof.
  intros Hdisk Hpresent. unfold delete_book, bind.
  rewrite load_books_run, Hdisk. fold (without book_id books).
  destruct (Nat.eqb_spec (length (without book_id books)) (length books)) as [Hlen|_].
  - apply without_all_kept in Hlen. contradiction.
  - reflexivity.
Qed.

(** C6. Deleting an id that no record of the store carries prints the
    not-found message and nothing else happens: the file is the very same
    and no write is logged. *)
Theorem delete_absent_id_no_write (w : world) (books : list book) (book_id : Z) :
  collection (disk w) = Some books ->
  book_id ∉ map id books ->
  fst (delete_book book_id w) = Returned tt /\
  disk (run (delete_book book_id) w) = disk w /\
  writes (run (delete_book book_id) w) = writes w /\
  console (run (delete_book book_id) w) = console w ++ [msg_not_found book_id].
Proof.
  intros Hdisk Habsent. unfold run.
  rewrite (delete_book_absent w books book_id Hdisk Habsent).
  repeat split.
Qed.

Lemma delete_absent_id_no_write_witness :
  (collection (disk (fresh_world (Stored two_books) [])) = Some two_books /\
   7%Z ∉ map id two_books) /\
  fst (delete_book 7 (fresh_world (Stored two_books) [])) = Returned tt /\
  disk (run (delete_book 7) (fresh_world (Stored two_books) [])) = Stored two_books /\
  writes (run (delete_book 7) (fresh_world (Stored two_books) [])) = [] /\
  console (run (delete_book 7) (fresh_world (Stored two_books) [])) =
    [] ++ [msg_not_found 7].
Proof.
  assert (Habsent : 7%Z ∉ map id two_books).
  { intros Hin. simpl in Hin. repeat (apply elem_of_cons in Hin as [Hin|Hin];
      [discriminate Hin|]). inversion Hin. }
  split; [split; [reflexivity | exact Habsent]|].
  exact (delete_absent_id_no_write (fresh_world (Stored two_books) []) two_books 7
           eq_refl Habsent).
Defined.

End Delete.

(** ** Ids over a session of adds and deletes *)

Section Reuse.

(** C1, as stated, fails: from no file at all, add gives id 1, delete 1
    empties the store, and the next add gives id 1 again. *)
Lemma deleted_top_id_returns : ~ deleted_ids_never_return.
Proof.
  intros Hclaim.
  apply (Hclaim (fresh_world Missing []) [Add "Dune" "Herbert" 1965] 1%Z []
                "Foundation" "Asimov" 1951%Z).
  - vm_compute. apply list_elem_of_singleton. reflexivity.
  - reflexivity.
Qed.

Lemma newest_id_after_add (w : world) (books : list book)
    (title author : string) (year : Z) :
  collection (disk w) = Some books ->
  newest_id (disk (run (add_book title author year) w)) = Some (next_id books).
Proof.
  intros Hdisk. unfold run, newest_id, ids_of.
  rewrite (add_book_run w books title author year Hdisk). simpl.
  rewrite map_app. simpl. apply last_snoc.
Qed.

(** C1, as the code has it. An add gives the new book one more than the
    greatest id on file (1 when there is none).  So in a session on one
    file, an id that was deleted is not given out again by a later add as
    long as the file, at the time of that add, holds a book whose id is at
    least the deleted one: the new id is then greater than the deleted one. *)
Theorem deleted_id_not_reused_below_top
    (w : world) (before : list op) (d : Z) (between : list op)
    (title author : string) (year : Z) (top : Z) :
  let w1 := run (session before) w in
  let w2 := run (session (Delete d :: between)) w1 in
  let w3 := run (add_book title author year) w2 in
  d ∈ ids_of (disk w1) ->
  top ∈ ids_of (disk w2) ->
  (d <= top)%Z ->
  exists new, newest_id (disk w3) = Some new /\ (d < new)%Z /\
              newest_id (disk w3) <> Some d.
Proof.
  intros w1 w2 w3 _ Htop Hle. subst w3.
  unfold ids_of in Htop.
  destruct (collection (disk w2)) as [books|] eqn:Hdisk; [|inversion Htop].
  apply list_elem_of_fmap in Htop as [b [-> Hb]].
  apply next_id_above in Hb.
  rewrite (newest_id_after_add w2 books title author year Hdisk).
  exists (next_id books). split; [reflexivity|]. split; [lia|].
  intros Heq. inversion Heq. lia.
Qed.

Lemma deleted_id_not_reused_below_top_witness :
  let w := fresh_world (Stored two_books) [] in
  let w1 := run (session [Add "Solaris" "Lem" 1961]) w in
  let w2 := run (session [Delete 2; Add "Ubik" "Dick" 1969]) w1 in
  let w3 := run (add_book "Foundation" "Asimov" 1951) w2 in
  (2%Z ∈ ids_of (disk w1) /\ 4%Z ∈ ids_of (disk w2) /\ (2 <= 4)%Z) /\
  exists new, newest_id (disk w3) = Some new /\ (2 < new)%Z /\
              newest_id (disk w3) <> Some 2%Z.
Proof.
  intros w w1 w2 w3.
  assert (H1 : 2%Z ∈ ids_of (disk w1)).
  { vm_compute. apply elem_of_cons. right. apply elem_of_cons. left. reflexivity. }
  assert (H2 : 4%Z ∈ ids_of (disk w2)).
  { vm_compute. do 2 (apply elem_of_cons; right). apply elem_of_cons. left.
    reflexivity. }
  assert (H3 : (2 <= 4)%Z) by (intros Hgt; discriminate Hgt).
  split; [exact (conj H1 (conj H2 H3))|].
  exact (deleted_id_not_reused_below_top w [Add "Solaris" "Lem" 1961] 2
           [Add "Ubik" "Dick" 1969] "Foundation" "Asimov" 1951 4 H1 H2 H3).
Defined.

End Reuse.

(** ** Update of the status *)

Section UpdateStatus.

Lemma update_status_scan_run (book_id : Z) (new_status : string)
    (books todo : list book) (i : nat) (w : world) :
  update_status_scan book_id new_status books i todo w =
  (Returned tt,
   match first_with_id book_id todo with
   | None => after_print w (msg_not_found book_id)
   | Some (k, target) =>
       if valid_status new_status
       then after_update w book_id new_status books (i + k) target
       else after_print w msg_bad_status
   end).
Proof.
  revert i; induction todo as [|b todo IH]; intros i; [reflexivity|].
  unfold first_with_id in *. cbn [update_status_scan list_find].
  destruct (Z.eqb_spec (id b) book_id) as [Heq|Hne].
  - rewrite decide_True by exact Heq. rewrite Nat.add_0_r.
    destruct (valid_status new_status); reflexivity.
  - rewrite decide_False by exact Hne. rewrite IH.
    destruct (list_find _ todo) as [[k target]|]; simpl; [|reflexivity].
    rewrite Nat.add_succ_r. reflexivity.
Qed.

Lemma update_status_run (w : world) (books : list book)
    (book_id : Z) (new_status : string) :
  collection (disk w) = Some books ->
  update_status book_id new_status w =
  (Returned tt,
   match first_with_id book_id books with
   | None => after_print w (msg_not_found book_id)
   | Some (i, target) =>
       if valid_status new_status
       then after_update w book_id new_status books i target
       else after_print w msg_bad_status
   end).
Proof.
  intros Hdisk. unfold update_status, bind.
  rewrite load_books_run, Hdisk. apply update_status_scan_run.
Qed.

Lemma update_status_garbled (w : world) (book_id : Z) (new_status : string) :
  collection (disk w) = None ->
  update_status book_id new_status w = (Raised JSONDecodeError, w).
Proof.
  intros Hdisk. unfold update_status, bind. rewrite load_books_run, Hdisk.
  reflexivity.
Qed.

Lemma first_with_id_present (book_id : Z) (books : list book) :
  book_id ∈ map id books ->
  exists i target, first_with_id book_id books = Some (i, target) /\
                   books !! i = Some target /\ id target = book_id.
Proof.
  intros Hin. apply list_elem_of_fmap in Hin as [b [Hid Hb]].
  destruct (list_find_elem_of (fun b => id b = book_id) books b Hb (eq_sym Hid))
    as [[i target] Hfind].
  exists i, target. split; [exact Hfind|].
  apply list_find_Some in Hfind as (Hlook & Htarget & _). tauto.
Qed.

Lemma first_with_id_absent (book_id : Z) (books : list book) :
  book_id ∉ map id books -> first_with_id book_id books = None.
Proof.
  intros Hnot. apply list_find_None, Forall_forall. intros b Hb Hid.
  apply Hnot, list_elem_of_fmap. exists b. split; [congruence | exact Hb].
Qed.

Lemma valid_status_elem (s : string) :
  valid_status s = true <-> s ∈ valid_statuses.
Proof.
  unfold valid_status. rewrite existsb_exists. split.
  - intros [x [Hx Heq]]. apply String.eqb_eq in Heq. subst x.
    apply list_elem_of_In. exact Hx.
  - intros Hin. exists s. split; [apply list_elem_of_In; exact Hin|].
    apply String.eqb_refl.
Qed.

End UpdateStatus.

Section UpdateStatusClaims.

(** C5. When the store holds a record with the given id and the status is
    one of the two valid ones, update_status succeeds and saves a
    collection of the same length in which every record but the first one
    with that id is what it was, and that one keeps its id, title, author
    and year and carries the new status. *)
Theorem update_status_changes_status_only (w : world) (books : list book)
    (book_id : Z) (new_status : string) :
  collection (disk w) = Some books ->
  book_id ∈ map id books ->
  valid_status new_status = true ->
  exists (i : nat) (target : book) (saved : list book),
    books !! i = Some target /\ id target = book_id /\
    fst (update_status book_id new_status w) = Returned tt /\
    disk (run (update_status book_id new_status) w) = Stored saved /\
    writes (run (update_status book_id new_status) w) = writes w ++ [saved] /\
    length saved = length books /\
    (forall j, j <> i -> saved !! j = books !! j) /\
    saved !! i = Some {| id := id target; title := title target;
                         author := author target; year := year target;
                         status := new_status |}.
Proof.
  intros Hdisk Hpresent Hvalid.
  destruct (first_with_id_present book_id books Hpresent)
    as (i & target & Hfind & Hlook & Hid).
  exists i, target, (<[i := set_status new_status target]> books).
  unfold run. rewrite (update_status_run w books book_id new_status Hdisk).
  rewrite Hfind, Hvalid. simpl.
  split; [exact Hlook|]. split; [exact Hid|]. do 3 (split; [reflexivity|]).
  split; [apply length_insert|]. split.
  - intros j Hne. apply list_lookup_insert_ne. congruence.
  - apply list_lookup_insert_eq. apply lookup_lt_Some in Hlook. exact Hlook.
Qed.

Lemma update_status_changes_status_only_witness :
  (collection (disk (fresh_world (Stored two_books) [])) = Some two_books /\
   2%Z ∈ map id two_books /\ valid_status "выдана" = true) /\
  exists (i : nat) (target : book) (saved : list book),
    two_books !! i = Some target /\ id target = 2%Z /\
    fst (update_status 2 "выдана" (fresh_world (Stored two_books) [])) = Returned tt /\
    disk (run (update_status 2 "выдана") (fresh_world (Stored two_books) [])) =
      Stored saved /\
    writes (run (update_status 2 "выдана") (fresh_world (Stored two_books) [])) =
      [] ++ [saved] /\
    length saved = length two_books /\
    (forall j, j <> i -> saved !! j = two_books !! j) /\
    saved !! i = Some {| id := id target; title := title target;
                         author := author target; year := year target;
                         status := "выдана" |}.
Proof.
  assert (Hpresent : 2%Z ∈ map id two_books).
  { simpl. apply elem_of_cons. right. apply elem_of_cons. left. reflexivity. }
  split; [split; [reflexivity | split; [exact Hpresent | reflexivity]]|].
  exact (update_status_changes_status_only (fresh_world (Stored two_books) [])
           two_books 2 "выдана" eq_refl Hpresent eq_refl).
Defined.

(** C4, as stated, fails: on a store without book 7 the answer to a status
    that is not valid is the not-found message, not the validation one. *)
Lemma bad_status_unknown_id_not_reported : ~ bad_status_always_reported.
Proof.
  intros Hclaim.
  destruct (Hclaim (fresh_world (Stored two_books) []) two_books 7%Z "lost"
                   eq_refl eq_refl) as (_ & _ & Hconsole).
  vm_compute in Hconsole. discriminate Hconsole.
Qed.

(** C4, as the code has it. A status outside the two valid ones never
    leads to a write: the file and the log of writes are what they were.
    The validation message is printed when the store holds a record with
    the id; when it holds none, the not-found message is printed. *)
Theorem bad_status_never_writes (w : world) (book_id : Z) (new_status : string) :
  valid_status new_status = false ->
  disk (run (update_status book_id new_status) w) = disk w /\
  writes (run (update_status book_id new_status) w) = writes w /\
  forall books, collection (disk w) = Some books ->
    fst (update_status book_id new_status w) = Returned tt /\
    (book_id ∈ map id books ->
     console (run (update_status book_id new_status) w) =
       console w ++ [msg_bad_status]) /\
    (book_id ∉ map id books ->
     console (run (update_status book_id new_status) w) =
       console w ++ [msg_not_found book_id]).
Proof.
  intros Hbad. unfold run.
  destruct (collection (disk w)) as [books|] eqn:Hdisk.
  - rewrite (update_status_run w books book_id new_status Hdisk), Hbad.
    split; [destruct (first_with_id book_id books) as [[i t]|]; reflexivity|].
    split; [destruct (first_with_id book_id books) as [[i t]|]; reflexivity|].
    intros books' Hbooks. inversion Hbooks; subst books'.
    split; [reflexivity|]. split.
    + intros Hin.
      destruct (first_with_id_present book_id books Hin) as (i & t & -> & _).
      reflexivity.
    + intros Hnot. rewrite (first_with_id_absent book_id books Hnot). reflexivity.
  - rewrite (update_status_garbled w book_id new_status Hdisk).
    split; [reflexivity|]. split; [reflexivity|]. intros books Hbooks.
    discriminate Hbooks.
Qed.

Lemma bad_status_never_writes_witness :
  valid_status "lost" = false /\
  disk (run (update_status 2 "lost") (fresh_world (Stored two_books) [])) =
    Stored two_books /\
  writes (run (update_status 2 "lost") (fresh_world (Stored two_books) [])) = [] /\
  forall books, Some two_books = Some books ->
    fst (update_status 2 "lost" (fresh_world (Stored two_books) [])) = Returned tt /\
    (2%Z ∈ map id books ->
     console (run (update_status 2 "lost") (fresh_world (Stored two_books) [])) =
       [] ++ [msg_bad_status]) /\
    (2%Z ∉ map id books ->
     console (run (update_status 2 "lost") (fresh_world (Stored two_books) [])) =
       [] ++ [msg_not_found 2]).
Proof.
  split; [reflexivity|].
  exact (bad_status_never_writes (fresh_world (Stored two_books) []) 2 "lost" eq_refl).
Defined.

End UpdateStatusClaims.

(** ** The status of a new book *)

Section InitialStatus.

Lemma default_status_not_valid : valid_status default_status = false.
Proof. reflexivity. Qed.

(** C10. A book made by add_book carries the status "В наличии" with a
    capital first letter.  That string is not in the list that
    update_status checks against, so it is not a status that update_status
    accepts, and whenever update_status writes, the status it has set is
    another string. *)
Theorem new_book_status_outside_valid_statuses (w : world) (books : list book)
    (title author : string) (year : Z) (book_id : Z) (new_status : string) :
  collection (disk w) = Some books ->
  (exists b, collection (disk (run (add_book title author year) w)) =
               Some (books ++ [b]) /\
             status b = "В наличии") /\
  ("В наличии" ∉ valid_statuses) /\
  valid_status "В наличии" = false /\
  (valid_status new_status = true -> new_status <> "В наличии") /\
  (writes (run (update_status book_id new_status) w) <> writes w ->
   new_status ∈ valid_statuses /\ new_status <> "В наличии").
Proof.
  intros Hdisk.
  assert (Hout : forall s, valid_status s = true -> s <> "В наличии").
  { intros s Hs ->. discriminate Hs. }
  split.
  { exists (new_record books title author year). unfold run.
    rewrite (add_book_run w books title author year Hdisk). split; reflexivity. }
  split.
  { intros Hin. apply valid_status_elem in Hin. discriminate Hin. }
  split; [reflexivity|]. split; [apply Hout|].
  intros Hwrote. unfold run in Hwrote.
  rewrite (update_status_run w books book_id new_status Hdisk) in Hwrote.
  destruct (valid_status new_status) eqn:Hvalid.
  - split; [apply valid_status_elem; exact Hvalid | apply Hout; exact Hvalid].
  - exfalso. apply Hwrote.
    destruct (first_with_id book_id books) as [[i t]|]; reflexivity.
Qed.

Lemma new_book_status_outside_valid_statuses_witness :
  collection (disk (fresh_world (Stored two_books) [])) = Some two_books /\
  (exists b, collection (disk (run (add_book "Solaris" "Lem" 1961)
                                   (fresh_world (Stored two_books) []))) =
               Some (two_books ++ [b]) /\
             status b = "В наличии") /\
  ("В наличии" ∉ valid_statuses) /\
  valid_status "В наличии" = false /\
  (valid_status "выдана" = true -> "выдана" <> "В наличии") /\
  (writes (run (update_status 2 "выдана") (fresh_world (Stored two_books) [])) <>
     writes (fresh_world (Stored two_books) []) ->
   "выдана" ∈ valid_statuses /\ "выдана" <> "В наличии").
Proof.
  split; [reflexivity|].
  exact (new_book_status_outside_valid_statuses (fresh_world (Stored two_books) [])
           two_books "Solaris" "Lem" 1961 2 "выдана" eq_refl).
Defined.

End InitialStatus.

(** ** Saving what was loaded: the JSON text *)

Section Codec.

Import Bytes.
Local Open Scope string_scope.

Lemma string_body_escape_char (c : ascii) (tail : string) :
  string_body (escape_char c tail) = more c (string_body tail).
Proof. destruct c as [[] [] [] [] [] [] [] []]; reflexivity. Qed.

Lemma string_body_put (s k : string) :
  string_body (put_escaped s (String quote k)) = Some (s, k).
Proof.
  induction s as [|c s IH]; [reflexivity|].
  cbn [put_escaped]. rewrite string_body_escape_char, IH. reflexivity.
Qed.

Lemma parse_str_put (s k : string) : parse_str (put_str s k) = Some (s, k).
Proof. unfold parse_str, put_str. cbn. apply string_body_put. Qed.

Lemma span_digits_uint (u : Decimal.uint) (k : string) :
  ends_number k ->
  span_digits (NilEmpty.string_of_uint u ++ k) = (NilEmpty.string_of_uint u, k).
Proof.
  intros Hk. induction u; cbn; try (rewrite IHu; reflexivity).
  destruct k as [|c k]; [reflexivity|]. cbn in *. rewrite Hk. reflexivity.
Qed.

Lemma span_int_put (n : Z) (k : string) :
  ends_number k -> span_int (str_of_int n ++ k) = (str_of_int n, k).
Proof.
  intros Hk. unfold str_of_int.
  assert (Huint : forall u, span_int (NilZero.string_of_uint u ++ k) =
                            (NilZero.string_of_uint u, k)).
  { intros u. destruct u; cbn; try (rewrite (span_digits_uint _ _ Hk); reflexivity).
    destruct k as [|c k]; [reflexivity|]. cbn in *. rewrite Hk. reflexivity. }
  destruct n as [|p|p]; cbn [Z.to_int NilZero.string_of_int].
  - apply (Huint (Decimal.D0 Decimal.Nil)).
  - apply Huint.
  - cbn. 
    assert (Hd : forall u, span_digits (NilZero.string_of_uint u ++ k) =
                            (NilZero.string_of_uint u, k)).
    { intros u. destruct u; try exact (span_digits_uint _ _ Hk).
      cbn. destruct k as [|c k]; [reflexivity|]. cbn in *. rewrite Hk. reflexivity. }
    rewrite Hd. reflexivity.
Qed.

Lemma skip_ws_int (n : Z) (k : string) :
  skip_ws (str_of_int n ++ k) = str_of_int n ++ k.
Proof.
  unfold str_of_int. destruct n as [|p|p]; cbn; try reflexivity.
  all: destruct (Pos.to_uint p); reflexivity.
Qed.

Lemma int_of_str_of_int (n : Z) :
  NilZero.int_of_string (str_of_int n) = Some (Z.to_int n).
Proof.
  unfold str_of_int. apply NilZero.isi; destruct n; simpl; try discriminate;
    intros Hbad; inversion Hbad as [Hnil];
    pose proof (DecimalPos.Unsigned.to_uint_nonnil p); congruence.
Qed.

Lemma parse_int_put (n : Z) (k : string) :
  ends_number k -> parse_int (put_int n k) = Some (n, k).
Proof.
  intros Hk. unfold parse_int, put_int.
  rewrite skip_ws_int, (span_int_put n k Hk), int_of_str_of_int, DecimalZ.of_to.
  rewrite String.eqb_refl. reflexivity.
Qed.

Lemma parse_key_put (key k : string) :
  parse_key key (put_str key k) = expect ":" k.
Proof.
  unfold parse_key. rewrite parse_str_put. cbn. rewrite String.eqb_refl. reflexivity.
Qed.

Lemma skip_ws_more (c : ascii) (s : string) :
  is_ws c = true -> skip_ws (String c s) = skip_ws s.
Proof. intros Hc. cbn. rewrite Hc. reflexivity. Qed.

Lemma skip_ws_stop (c : ascii) (s : string) :
  is_ws c = false -> skip_ws (String c s) = String c s.
Proof. intros Hc. cbn. rewrite Hc. reflexivity. Qed.

Lemma parse_str_ws (c : ascii) (s : string) :
  is_ws c = true -> parse_str (String c s) = parse_str s.
Proof. intros Hc. unfold parse_str. rewrite (skip_ws_more c s Hc). reflexivity. Qed.

Lemma parse_int_ws (c : ascii) (s : string) :
  is_ws c = true -> parse_int (String c s) = parse_int s.
Proof. intros Hc. unfold parse_int. rewrite (skip_ws_more c s Hc). reflexivity. Qed.

Lemma parse_key_ws (key : string) (c : ascii) (s : string) :
  is_ws c = true -> parse_key key (String c s) = parse_key key s.
Proof. intros Hc. unfold parse_key. rewrite (parse_str_ws c s Hc). reflexivity. Qed.

Lemma expect_ws (x c : ascii) (s : string) :
  is_ws c = true -> expect x (String c s) = expect x s.
Proof. intros Hc. unfold expect. rewrite (skip_ws_more c s Hc). reflexivity. Qed.

Lemma expect_here (x : ascii) (s : string) :
  is_ws x = false -> expect x (String x s) = Some s.
Proof. intros Hx. unfold expect. cbn. rewrite Hx, Ascii.eqb_refl. reflexivity. Qed.

Ltac token :=
  repeat first
    [ rewrite parse_key_ws by reflexivity
    | rewrite parse_str_ws by reflexivity
    | rewrite parse_int_ws by reflexivity
    | rewrite expect_ws by reflexivity ].

Lemma parse_book_put (b : book) (k : string) :
  parse_book (put_book b k) = Some (b, k).
Proof.
  unfold parse_book, put_book. cbn [String.append nl].
  token. rewrite expect_here by reflexivity. cbn [mbind option_bind].
  token. rewrite parse_key_put, expect_here by reflexivity. cbn [mbind option_bind].
  token. rewrite parse_int_put by reflexivity. cbn [mbind option_bind].
  rewrite expect_here by reflexivity. cbn [mbind option_bind].
  token. rewrite parse_key_put, expect_here by reflexivity. cbn [mbind option_bind].
  token. rewrite parse_str_put. cbn [mbind option_bind].
  rewrite expect_here by reflexivity. cbn [mbind option_bind].
  token. rewrite parse_key_put, expect_here by reflexivity. cbn [mbind option_bind].
  token. rewrite parse_str_put. cbn [mbind option_bind].
  rewrite expect_here by reflexivity. cbn [mbind option_bind].
  token. rewrite parse_key_put, expect_here by reflexivity. cbn [mbind option_bind].
  token. rewrite parse_int_put by reflexivity. cbn [mbind option_bind].
  rewrite expect_here by reflexivity. cbn [mbind option_bind].
  token. rewrite parse_key_put, expect_here by reflexivity. cbn [mbind option_bind].
  token. rewrite parse_str_put. cbn [mbind option_bind].
  token. rewrite expect_here by reflexivity. cbn [mbind option_bind].
  destruct b; reflexivity.
Qed.

Lemma parse_books_ws (fuel : nat) (c : ascii) (s : string) :
  is_ws c = true -> parse_books fuel (String c s) = parse_books fuel s.
Proof.
  intros Hc. destruct fuel as [|fuel]; [reflexivity|]. cbn [parse_books].
  unfold parse_book. rewrite (expect_ws _ c s Hc). reflexivity.
Qed.

Lemma parse_books_put (others : list book) :
  forall (first : book) (k : string) (fuel : nat),
    length others < fuel ->
    parse_books fuel (put_books first others k) = Some (first :: others, k).
Proof.
  induction others as [|b bs IH]; intros first k fuel Hfuel;
    (destruct fuel as [|fuel]; [simpl in Hfuel; lia|]); cbn [parse_books put_books];
    rewrite parse_book_put; cbn [mbind option_bind String.append nl].
  - rewrite skip_ws_more, skip_ws_stop by reflexivity. reflexivity.
  - rewrite skip_ws_stop by reflexivity. cbn [Ascii.eqb Bool.eqb]. cbv beta iota.
    rewrite parse_books_ws by reflexivity.
    rewrite IH by (simpl in Hfuel; lia). reflexivity.
Qed.

Lemma length_append (a k : string) :
  String.length (a ++ k) = String.length a + String.length k.
Proof. induction a as [|c a IH]; simpl; [reflexivity | rewrite IH; reflexivity]. Qed.

Lemma length_put_escaped (s k : string) :
  String.length k <= String.length (put_escaped s k).
Proof.
  induction s as [|c s IH]; simpl; [lia|].
  unfold escape_char.
  repeat match goal with
         | |- context [if ?t then _ else _] => destruct t
         end; simpl; lia.
Qed.

Lemma length_put_str (s k : string) :
  String.length k <= String.length (put_str s k).
Proof.
  unfold put_str. simpl.
  pose proof (length_put_escaped s (String quote k)) as Hle. simpl in Hle. lia.
Qed.

Lemma length_put_int (n : Z) (k : string) :
  String.length k <= String.length (put_int n k).
Proof. unfold put_int. rewrite length_append. lia. Qed.

Lemma longer_append (a x k : string) :
  String.length k < String.length x -> String.length k < String.length (a ++ x).
Proof. rewrite length_append. lia. Qed.

Lemma longer_put_str (s x k : string) :
  String.length k < String.length x -> String.length k < String.length (put_str s x).
Proof. pose proof (length_put_str s x). lia. Qed.

Lemma longer_put_int (n : Z) (x k : string) :
  String.length k < String.length x -> String.length k < String.length (put_int n x).
Proof. pose proof (length_put_int n x). lia. Qed.

Lemma length_put_book (b : book) (k : string) :
  String.length k < String.length (put_book b k).
Proof.
  unfold put_book.
  repeat first
    [ apply longer_put_str | apply longer_put_int
    | match goal with
      | |- String.length ?k0 < String.length (_ ++ ?k0) =>
          rewrite length_append; simpl; lia
      end
    | apply longer_append ].
Qed.

Lemma length_put_books (others : list book) :
  forall (first : book) (k : string),
    length others < String.length (put_books first others k).
Proof.
  induction others as [|b bs IH]; intros first k; cbn [put_books].
  - pose proof (length_put_book first (nl ++ "]" ++ k)). simpl. lia.
  - pose proof (length_put_book first ("," ++ nl ++ put_books b bs k)) as Hlt.
    rewrite !length_append in Hlt. specialize (IH b k). simpl in *. lia.
Qed.

Lemma skip_ws_put_books (others : list book) (first : book) (k : string) :
  exists tail, skip_ws (put_books first others k) = String "{" tail.
Proof.
  destruct others; cbn [put_books]; unfold put_book; cbn [String.append];
    rewrite !skip_ws_more by reflexivity; rewrite skip_ws_stop by reflexivity;
    eauto.
Qed.

Lemma parse_document_dumps (books : list book) :
  parse_document (json_dumps books) = Some books.
Proof.
  destruct books as [|b bs]; [reflexivity|].
  unfold parse_document. set (fuel := String.length (json_dumps (b :: bs))).
  assert (Hfuel : length bs < fuel).
  { subst fuel. cbn [json_dumps]. rewrite !length_append.
    pose proof (length_put_books bs b "") as Hlen. lia. }
  cbn [json_dumps String.append nl]. rewrite expect_here by reflexivity.
  cbn [mbind option_bind]. rewrite skip_ws_more by reflexivity.
  destruct (skip_ws_put_books bs b "") as [tail ->].
  cbn [Ascii.eqb Bool.eqb]. cbv beta iota.
  rewrite parse_books_ws by reflexivity.
  rewrite (parse_books_put bs b "" fuel Hfuel). reflexivity.
Qed.

(** *** The text written is UTF-8 *)

Lemma utf8_run_append (a b : string) (st : utf8_state) :
  utf8_run st (a ++ b) =
  match utf8_run st a with
  | Some st' => utf8_run st' b
  | None => None
  end.
Proof.
  revert st; induction a as [|c a IH]; intros st; cbn [String.append utf8_run];
    [reflexivity|].
  destruct (utf8_step st c); [apply IH | reflexivity].
Qed.

Lemma utf8_run_escape_char (c : ascii) (k : string) (st : utf8_state) :
  utf8_run st (escape_char c k) =
  match utf8_step st c with
  | Some st' => utf8_run st' k
  | None => None
  end.
Proof. destruct st; destruct c as [[] [] [] [] [] [] [] []]; reflexivity. Qed.

Lemma utf8_run_put_escaped (s k : string) (st : utf8_state) :
  utf8_run st (put_escaped s k) =
  match utf8_run st s with
  | Some st' => utf8_run st' k
  | None => None
  end.
Proof.
  revert st; induction s as [|c s IH]; intros st; cbn [put_escaped utf8_run];
    [reflexivity|].
  rewrite utf8_run_escape_char. destruct (utf8_step st c); [apply IH | reflexivity].
Qed.

Lemma utf8_run_ascii (c : ascii) (s : string) :
  between 0 127 c = true -> utf8_run Start (String c s) = utf8_run Start s.
Proof. intros Hc. cbn [utf8_run utf8_step]. rewrite Hc. reflexivity. Qed.

Lemma utf8_run_put_str (s k : string) :
  is_str s = true -> utf8_run Start (put_str s k) = utf8_run Start k.
Proof.
  unfold is_str, put_str. intros Hs.
  rewrite utf8_run_ascii by reflexivity. rewrite utf8_run_put_escaped.
  destruct (utf8_run Start s) as [[]|]; try discriminate Hs.
  apply utf8_run_ascii. reflexivity.
Qed.

Lemma utf8_run_uint (u : Decimal.uint) (k : string) :
  utf8_run Start (NilEmpty.string_of_uint u ++ k) = utf8_run Start k.
Proof. induction u; cbn [NilEmpty.string_of_uint String.append]; trivial. Qed.

Lemma utf8_run_put_int (n : Z) (k : string) :
  utf8_run Start (put_int n k) = utf8_run Start k.
Proof.
  unfold put_int, str_of_int.
  destruct n as [|p|p]; cbn [Z.to_int NilZero.string_of_int]; try reflexivity.
  - destruct (Pos.to_uint p) eqn:Hp; try apply (utf8_run_uint _ k). reflexivity.
  - cbn [String.append]. rewrite utf8_run_ascii by reflexivity.
    destruct (Pos.to_uint p) eqn:Hp; try apply (utf8_run_uint _ k). reflexivity.
Qed.

Ltac ascii_run :=
  repeat first
    [ rewrite utf8_run_ascii by reflexivity
    | rewrite utf8_run_put_int
    | rewrite utf8_run_put_str by (reflexivity || assumption) ].

Lemma utf8_run_put_book (b : book) (k : string) :
  are_strs b = true -> utf8_run Start (put_book b k) = utf8_run Start k.
Proof.
  unfold are_strs. rewrite !andb_true_iff. intros [[Ht Ha] Hs].
  unfold put_book. cbn [String.append nl]. ascii_run. reflexivity.
Qed.

Lemma utf8_run_put_books (others : list book) :
  forall (first : book) (k : string),
    Forall (fun b => are_strs b = true) (first :: others) ->
    utf8_run Start (put_books first others k) = utf8_run Start k.
Proof.
  induction others as [|b bs IH]; intros first k Hall;
    apply Forall_cons in Hall as [Hfirst Hrest]; cbn [put_books];
    rewrite (utf8_run_put_book _ _ Hfirst); cbn [String.append nl]; ascii_run.
  - reflexivity.
  - apply IH. exact Hrest.
Qed.

Lemma json_dumps_is_str (books : list book) :
  Forall (fun b => are_strs b = true) books -> is_str (json_dumps books) = true.
Proof.
  intros Hall. destruct books as [|b bs]; [reflexivity|].
  unfold is_str, json_dumps. cbn [String.append nl]. ascii_run.
  rewrite (utf8_run_put_books bs b "" Hall). reflexivity.
Qed.

(** What [json.load] reads from the text that [json.dump] has written is
    the list that was dumped. *)
Lemma json_loads_dumps (books : list book) :
  Forall (fun b => are_strs b = true) books ->
  json_loads (json_dumps books) = Some books.
Proof.
  intros Hall. unfold json_loads. rewrite (json_dumps_is_str books Hall).
  apply parse_document_dumps.
Qed.

(** *** What is read from UTF-8 text are strs *)




















End Codec.

Section RoundTrip.

(** The text that save_books writes for one book. *)
Example json_dumps_one_book :
  Bytes.json_dumps one_book =
  fstr [ "["; nl;
         "    {"; nl;
         "        "; dq; "id"; dq; ": 4,"; nl;
         "        "; dq; "title"; dq; ": "; dq; "Dune"; dq; ","; nl;
         "        "; dq; "author"; dq; ": "; dq; "Herbert"; dq; ","; nl;
         "        "; dq; "year"; dq; ": 1965,"; nl;
         "        "; dq; "status"; dq; ": "; dq; "выдана"; dq; nl;
         "    }"; nl;
         "]" ].
Proof. reflexivity. Qed.



(** Without a file, load_books returns the empty list and saving it makes
    the file. *)
Remark resave_makes_missing_file : Bytes.resave None = Some (Some "[]").
Proof. reflexivity. Qed.



(** The record store of the other sections is the file seen through
    json.load: load_books and save_books on records agree with load_books
    and save_books on bytes. *)
Lemma record_store_abstracts_bytes (f : option string) (w : world)
    (books : list book) :
  decodes f (disk w) ->
  (fst (load_books w) = Returned books <-> Bytes.load_books f = Some books) /\
  (Forall (fun b => Bytes.are_strs b = true) books ->
   decodes (Bytes.save_books books f) (disk (run (save_books books) w))).
Proof.
  intros Hdec. split.
  - rewrite load_books_run. simpl. destruct f as [text|]; simpl in *.
    + destruct Hdec as (stored & Hloads & ->). simpl. rewrite Hloads.
      split; intros Heq; inversion Heq; reflexivity.
    + rewrite Hdec. simpl. split; intros Heq; inversion Heq; reflexivity.
  - intros Hstrs. simpl. exists books. split; [|reflexivity].
    apply json_loads_dumps. exact Hstrs.
Qed.

(** X1. Whatever the file held before, after save_books the file holds the
    text of json.dump with indent 4 (quotes, backslashes and control
    characters escaped, all other characters written as they are), and
    load_books reads back from it the very list that was saved. *)
Theorem save_then_load_bytes (f : option string) (books : list book) :
  Forall (fun b => Bytes.are_strs b = true) books ->
  Bytes.save_books books f = Some (Bytes.json_dumps books) /\
  Bytes.load_books (Bytes.save_books books f) = Some books.
Proof.
  intros Hstrs. split; [reflexivity|]. apply json_loads_dumps. exact Hstrs.
Qed.

Lemma two_books_are_strs : Forall (fun b => Bytes.are_strs b = true) two_books.
Proof. repeat constructor. Defined.

Lemma save_then_load_bytes_witness :
  Forall (fun b => Bytes.are_strs b = true) two_books /\
  Bytes.save_books two_books (Some "{") = Some (Bytes.json_dumps two_books) /\
  Bytes.load_books (Bytes.save_books two_books (Some "{")) = Some two_books.
Proof.
  split; [exact two_books_are_strs|].
  exact (save_then_load_bytes (Some "{") two_books two_books_are_strs).
Defined.

End RoundTrip.


(** ** Search *)

Section Search.

Context {py : builtins}.

Lemma search_test_matches (query : string) (b : book) :
  search_test query b = true <-> matches query b.
Proof.
  unfold search_test, matches, insensitive_substring.
  rewrite !orb_true_iff, !str_in_substring, String.eqb_eq. tauto.
Qed.

Lemma list_filter_sublist {A} (f : A -> bool) (l : list A) :
  List.filter f l `sublist_of` l.
Proof.
  induction l as [|x l IH]; simpl; [constructor|].
  destruct (f x); [apply sublist_skip | apply sublist_cons]; exact IH.
Qed.

Lemma list_filter_elem {A} (f : A -> bool) (l : list A) (x : A) :
  x ∈ List.filter f l <-> x ∈ l /\ f x = true.
Proof. rewrite !list_elem_of_In. apply filter_In. Qed.

Lemma list_filter_same {A} (f g : A -> bool) (l : list A) :
  (forall x, f x = true <-> g x = true) -> List.filter f l = List.filter g l.
Proof.
  intros Hfg. apply filter_ext. intros x. specialize (Hfg x).
  destruct (f x), (g x); intuition congruence.
Qed.

Lemma print_each_run {A} (render : A -> string) (l : list A) (w : world) :
  print_each render l w =
  (Returned tt,
   {| disk := disk w; writes := writes w;
      console := console w ++ map render l; stdin := stdin w |}).
Proof.
  revert w; induction l as [|x l IH]; intros w; simpl.
  - unfold ret. rewrite app_nil_r. destruct w; reflexivity.
  - unfold bind, print. rewrite IH. simpl. rewrite <- app_assoc. reflexivity.
Qed.

Lemma search_book_run (w : world) (books : list book) (query : string) :
  collection (disk w) = Some books ->
  search_book query w =
  (Returned tt,
   {| disk := disk w; writes := writes w;
      console := console w ++ search_output (search_results query books);
      stdin := stdin w |}).
Proof.
  intros Hdisk. unfold search_book, bind. rewrite load_books_run, Hdisk.
  destruct (search_results query books) as [|b results] eqn:Hres.
  - reflexivity.
  - rewrite print_each_run. reflexivity.
Qed.

(** C8. On a store that can be read, the records that search_book finds
    (and prints, one block each) are exactly the records of the store, in
    store order, for which the lower-cased query is a substring of the
    lower-cased title or author, or the query is the decimal string of the
    year: the list found is the store filtered by any test that decides
    that condition.  When there is none, search_book does not raise: it
    returns after printing the nothing-found message.  It never writes. *)
Theorem search_finds_exactly_the_matches (w : world) (books : list book)
    (query : string) :
  collection (disk w) = Some books ->
  (forall decides : book -> bool,
     (forall b, decides b = true <-> matches query b) ->
     search_results query books = List.filter decides books) /\
  search_results query books `sublist_of` books /\
  (forall b, b ∈ search_results query books <-> b ∈ books /\ matches query b) /\
  fst (search_book query w) = Returned tt /\
  disk (run (search_book query) w) = disk w /\
  writes (run (search_book query) w) = writes w /\
  (search_results query books = [] ->
   console (run (search_book query) w) = console w ++ [msg_no_results]) /\
  (search_results query books <> [] ->
   console (run (search_book query) w) =
     console w ++ map show_book (search_results query books)).
Proof.
  intros Hdisk. split.
  { intros decides Hdecides. apply list_filter_same. intros b.
    rewrite search_test_matches, Hdecides. reflexivity. }
  split; [apply list_filter_sublist|].
  split.
  { intros b. unfold search_results.
    rewrite list_filter_elem, search_test_matches. reflexivity. }
  unfold run. rewrite (search_book_run w books query Hdisk). simpl.
  do 3 (split; [reflexivity|]). split.
  - intros ->. reflexivity.
  - intros Hne. destruct (search_results query books); [contradiction|reflexivity].
Qed.

(** C3, as the code has it. A query that is the decimal string of a year
    finds every record of that year, in store order, and besides them
    only records whose lower-cased title or author contains the query. *)
Theorem year_query_finds_year_and_text_matches (books : list book) (y : Z) :
  List.filter (fun b => (year b =? y)%Z) books `sublist_of`
    search_results (str_of_int y) books /\
  search_results (str_of_int y) books `sublist_of` books /\
  (forall b, b ∈ search_results (str_of_int y) books <->
             b ∈ books /\
             (year b = y \/
              insensitive_substring (str_of_int y) (title b) \/
              insensitive_substring (str_of_int y) (author b))).
Proof.
  split; [|split].
  - unfold search_results.
    induction books as [|b books IH]; [constructor|]. simpl.
    destruct (Z.eqb_spec (year b) y) as [Hy|Hy].
    + replace (search_test (str_of_int y) b) with true.
      * apply sublist_skip, IH.
      * symmetry. apply search_test_matches. right. right. congruence.
    + destruct (search_test (str_of_int y) b);
        [apply sublist_cons, IH | apply IH].
  - apply list_filter_sublist.
  - intros b. unfold search_results.
    rewrite list_filter_elem, search_test_matches. unfold matches. split.
    + intros [Hb [Ht|[Ha|Hy]]]; [tauto | tauto |].
      split; [exact Hb|]. left. symmetry. exact (str_of_int_inj _ _ Hy).
    + intros [Hb [Hy|[Ht|Ha]]]; [|tauto|tauto].
      split; [exact Hb|]. right. right. congruence.
Qed.

End Search.

Lemma search_finds_exactly_the_matches_witness :
  collection (disk (fresh_world (Stored two_books) [])) = Some two_books /\
  (forall decides : book -> bool,
     (forall b, decides b = true <-> matches "ORWELL" b) ->
     search_results "ORWELL" two_books = List.filter decides two_books) /\
  search_results "ORWELL" two_books `sublist_of` two_books /\
  (forall b, b ∈ search_results "ORWELL" two_books <->
             b ∈ two_books /\ matches "ORWELL" b) /\
  fst (search_book "ORWELL" (fresh_world (Stored two_books) [])) = Returned tt /\
  disk (run (search_book "ORWELL") (fresh_world (Stored two_books) [])) =
    Stored two_books /\
  writes (run (search_book "ORWELL") (fresh_world (Stored two_books) [])) = [] /\
  (search_results "ORWELL" two_books = [] ->
   console (run (search_book "ORWELL") (fresh_world (Stored two_books) [])) =
     [] ++ [msg_no_results]) /\
  (search_results "ORWELL" two_books <> [] ->
   console (run (search_book "ORWELL") (fresh_world (Stored two_books) [])) =
     [] ++ map show_book (search_results "ORWELL" two_books)).
Proof.
  split; [reflexivity|].
  exact (search_finds_exactly_the_matches (fresh_world (Stored two_books) [])
           two_books "ORWELL" eq_refl).
Defined.

Section SearchByYear.

(** C3, as stated, fails: 1984 is the year of Neuromancer and the title of
    a book of 1949, and the query finds both. *)
Lemma year_query_finds_title_too : ~ year_query_finds_only_that_year.
Proof.
  intros Hclaim.
  assert (Hin : Book 2 "Neuromancer" "Gibson" 1984 "В наличии" ∈ two_books).
  { apply elem_of_cons. right. apply elem_of_cons. left. reflexivity. }
  specialize (Hclaim two_books _ Hin).
  vm_compute in Hclaim. discriminate Hclaim.
Qed.

End SearchByYear.

(** ** The dispatcher *)

Create HintDb reads discriminated.

Section ReadsOnly.

Context {py : builtins}.

Lemma reads_only_ret {A} (a : A) : reads_only (ret a).
Proof. intros w. reflexivity. Qed.

Lemma reads_only_raise {A} (e : exn) : reads_only (@raise A e).
Proof. intros w. reflexivity. Qed.

Lemma reads_only_bind {A B} (m : M A) (k : A -> M B) :
  reads_only m -> (forall a, reads_only (k a)) -> reads_only (bind m k).
Proof.
  intros Hm Hk w. unfold bind. specialize (Hm w).
  destruct (m w) as [[a|e] w']; simpl in *; [|exact Hm].
  specialize (Hk a w'). lia.
Qed.

Lemma reads_only_try {A} (m handler : M A) (class : exn -> bool) :
  reads_only m -> reads_only handler -> reads_only (try_except m class handler).
Proof.
  intros Hm Hh w. unfold try_except. specialize (Hm w).
  destruct (m w) as [[a|e] w']; simpl in *; [exact Hm|].
  destruct (class e); simpl; [|exact Hm]. specialize (Hh w'). lia.
Qed.

Lemma reads_only_print (s : string) : reads_only (print s).
Proof. intros w. reflexivity. Qed.

Lemma reads_only_input (prompt : string) : reads_only (input prompt).
Proof. intros w. unfold input. destruct (stdin w); simpl; lia. Qed.

Lemma reads_only_print_each {A} (render : A -> string) (l : list A) :
  reads_only (print_each render l).
Proof. intros w. rewrite print_each_run. reflexivity. Qed.

Lemma reads_only_load_books : reads_only load_books.
Proof. intros w. rewrite load_books_run. reflexivity. Qed.

Lemma reads_only_get_next_id : reads_only get_next_id.
Proof. intros w. rewrite get_next_id_run. reflexivity. Qed.

Lemma reads_only_save_books (books : list book) : reads_only (save_books books).
Proof. intros w. reflexivity. Qed.

Hint Resolve reads_only_ret reads_only_raise reads_only_print reads_only_input
  reads_only_print_each reads_only_load_books reads_only_get_next_id
  reads_only_save_books : reads.

Ltac reads :=
  repeat first
    [ progress auto with reads
    | apply reads_only_bind; [|intros ?]
    | apply reads_only_try
    | match goal with
      | |- reads_only (if ?c then _ else _) => destruct c
      | |- reads_only (match ?x with _ => _ end) => destruct x
      end ].

Lemma reads_only_add_book (title author : string) (year : Z) :
  reads_only (add_book title author year).
Proof. unfold add_book, Book_init. reads. Qed.

Lemma reads_only_delete_book (book_id : Z) : reads_only (delete_book book_id).
Proof. unfold delete_book. reads. Qed.

Lemma reads_only_search_book (query : string) : reads_only (search_book query).
Proof. unfold search_book. reads. Qed.

Lemma reads_only_display_books : reads_only display_books.
Proof. unfold display_books. reads. Qed.

Lemma reads_only_update_status (book_id : Z) (new_status : string) :
  reads_only (update_status book_id new_status).
Proof.
  unfold update_status. apply reads_only_bind; [auto with reads|].
  intros books w. rewrite update_status_scan_run. simpl.
  destruct (first_with_id book_id books) as [[i t]|]; [|reflexivity].
  destruct (valid_status new_status); reflexivity.
Qed.

Lemma reads_only_input_int (prompt : string) : reads_only (input_int prompt).
Proof. unfold input_int. reads. Qed.

Hint Resolve reads_only_add_book reads_only_delete_book reads_only_search_book
  reads_only_display_books reads_only_update_status reads_only_input_int : reads.

Lemma reads_only_dispatch (choice : string) : reads_only (dispatch choice).
Proof. unfold dispatch. reads. Qed.

(** Every turn that ends without an exception has read the user's choice. *)
Lemma main_turn_reads (w w' : world) (again : bool) :
  main_turn w = (Returned again, w') ->
  length (stdin w') < length (stdin w).
Proof.
  unfold main_turn, bind. rewrite print_each_run. unfold input at 1.
  cbn [stdin disk writes console].
  destruct (stdin w) as [|choice rest] eqn:Hstdin; [discriminate|].
  intros Hturn.
  match type of Hturn with
  | dispatch ?c ?w1 = _ => pose proof (reads_only_dispatch c w1) as Hle
  end.
  rewrite Hturn in Hle. simpl in Hle. simpl. lia.
Qed.

(** The loop ends, with the exit or with an exception, before the user's
    lines run out: one more turn than there are lines is enough. *)
Lemma main_loop_ends (fuel : nat) (w : world) :
  length (stdin w) < fuel -> exists result, main_loop fuel w = Some result.
Proof.
  revert w; induction fuel as [|fuel IH]; intros w Hfuel; [lia|].
  simpl. destruct (main_turn w) as [[[|]|e] w'] eqn:Hturn; eauto.
  apply IH. apply main_turn_reads in Hturn. lia.
Qed.

End ReadsOnly.

Section Dispatcher.

Context {py : builtins}.

Lemma main_turn_choice (w : world) (choice : string) (rest : list string) :
  stdin w = choice :: rest ->
  main_turn w =
  dispatch choice
    {| disk := disk w; writes := writes w;
       console := console w ++ menu ++ [ask_choice]; stdin := rest |}.
Proof.
  intros Hstdin. unfold main_turn, bind. rewrite print_each_run.
  unfold input. cbn [stdin disk writes console]. rewrite Hstdin.
  rewrite map_id, <- app_assoc. reflexivity.
Qed.

(** C2, on the code. In the add action a year that [int] rejects is not
    caught: the ValueError leaves [main], so the session ends there, with
    no message about the input, and the loop does not go on. *)
Theorem add_with_bad_year_ends_session (w : world) (title author bad : string)
    (rest : list string) (fuel : nat) :
  stdin w = "1" :: title :: author :: bad :: rest ->
  int_of_str bad = None ->
  main_loop (S fuel) w =
  Some (Raised ValueError,
        {| disk := disk w; writes := writes w;
           console := console w ++ menu ++
                      [ask_choice; "Введите название книги: ";
                       "Введите автора книги: "; "Введите год издания: "];
           stdin := rest |}).
Proof.
  intros Hstdin Hbad. cbn [main_loop].
  rewrite (main_turn_choice w _ _ Hstdin).
  unfold dispatch, bind, input_int, bind, input.
  cbn [String.eqb Ascii.eqb Bool.eqb stdin disk writes console].
  rewrite Hbad. unfold raise. rewrite <- !app_assoc. reflexivity.
Qed.

(** The delete action, next to it, catches the same error, prints a
    message and lets the loop go on. *)
Lemma delete_with_bad_id_goes_on (w : world) (bad : string) (rest : list string) :
  stdin w = "2" :: bad :: rest ->
  int_of_str bad = None ->
  main_turn w =
  (Returned true,
   {| disk := disk w; writes := writes w;
      console := console w ++ menu ++
                 [ask_choice; "Введите id книги, которую хотите удалить: ";
                  "Ошибка: введите корректный ID."];
      stdin := rest |}).
Proof.
  intros Hstdin Hbad. rewrite (main_turn_choice w _ _ Hstdin).
  unfold dispatch, bind, try_except, bind, input_int, bind, input.
  cbn [String.eqb Ascii.eqb Bool.eqb stdin disk writes console].
  rewrite Hbad. unfold raise, print, ret. cbn [is_ValueError stdin disk writes console].
  rewrite <- !app_assoc. reflexivity.
Qed.

End Dispatcher.

Lemma add_with_bad_year_ends_session_witness :
  (stdin (fresh_world Missing ["1"; "Dune"; "Herbert"; "MCMLXV"; "6"]) =
     ["1"; "Dune"; "Herbert"; "MCMLXV"; "6"] /\
   int_of_str "MCMLXV" = None) /\
  main_loop 5 (fresh_world Missing ["1"; "Dune"; "Herbert"; "MCMLXV"; "6"]) =
  Some (Raised ValueError,
        {| disk := Missing; writes := [];
           console := [] ++ menu ++
                      [ask_choice; "Введите название книги: ";
                       "Введите автора книги: "; "Введите год издания: "];
           stdin := ["6"] |}).
Proof.
  split; [split; reflexivity|].
  exact (add_with_bad_year_ends_session
           (fresh_world Missing ["1"; "Dune"; "Herbert"; "MCMLXV"; "6"])
           "Dune" "Herbert" "MCMLXV" ["6"] 4 eq_refl eq_refl).
Defined.


(** * Further properties of the program *)

(** ** The record store *)

Section StoreMore.

Lemma fold_max_attained (xs : list Z) (a : Z) :
  fold_left Z.max xs a = a \/ fold_left Z.max xs a ∈ xs.
Proof.
  revert a; induction xs as [|x xs IH]; intros a; simpl; [left; reflexivity|].
  destruct (IH (Z.max a x)) as [Heq|Hin].
  - rewrite Heq. destruct (Z.max_spec a x) as [[_ ->]|[_ ->]].
    + right. apply elem_of_cons. left. reflexivity.
    + left. reflexivity.
  - right. apply elem_of_cons. right. exact Hin.
Qed.

Lemma next_id_is_successor (books : list book) :
  books <> [] -> exists b, b ∈ books /\ next_id books = (id b + 1)%Z.
Proof.
  destruct books as [|first others]; [congruence|]. intros _.
  unfold next_id, max_id.
  destruct (fold_max_attained (map id others) (id first)) as [->|Hin].
  - exists first. split; [apply elem_of_cons; left|]; reflexivity.
  - apply list_elem_of_fmap in Hin as [b [Heq Hb]]. exists b.
    split; [apply elem_of_cons; right; exact Hb | rewrite Heq; reflexivity].
Qed.

(** X2. get_next_id only reads.  On a store that can be read it returns 1 when
    there is no record, and otherwise one more than the id of some record;
    the id returned is greater than every id on file, so it is on no
    record. *)
Theorem get_next_id_is_fresh (w : world) (books : list book) :
  collection (disk w) = Some books ->
  exists n,
    get_next_id w = (Returned n, w) /\
    (forall b, b ∈ books -> (id b < n)%Z) /\
    (n ∉ map id books) /\
    (books = [] -> n = 1%Z) /\
    (books <> [] -> exists b, b ∈ books /\ n = (id b + 1)%Z).
Proof.
  intros Hdisk. exists (next_id books).
  rewrite get_next_id_run, Hdisk. split; [reflexivity|].
  split; [intros b; apply next_id_above|]. split.
  - intros Hin. apply list_elem_of_fmap in Hin as [b [Heq Hb]].
    apply next_id_above in Hb. lia.
  - split; [intros ->; reflexivity | apply next_id_is_successor].
Qed.

Lemma get_next_id_is_fresh_witness :
  collection (disk (fresh_world (Stored two_books) [])) = Some two_books /\
  exists n,
    get_next_id (fresh_world (Stored two_books) []) =
      (Returned n, fresh_world (Stored two_books) []) /\
    (forall b, b ∈ two_books -> (id b < n)%Z) /\
    (n ∉ map id two_books) /\
    (two_books = [] -> n = 1%Z) /\
    (two_books <> [] -> exists b, b ∈ two_books /\ n = (id b + 1)%Z).
Proof.
  split; [reflexivity|].
  exact (get_next_id_is_fresh (fresh_world (Stored two_books) []) two_books eq_refl).
Defined.

(** X3. On a store that can be read, add_book returns after one write: the
    file holds the old records, untouched and in their order, followed by
    one new record with the given title, author and year, the default
    status and an id that no old record has; one line is printed. *)
Theorem add_book_appends_one_record (w : world) (books : list book)
    (title' author' : string) (year' : Z) :
  collection (disk w) = Some books ->
  exists b,
    add_book title' author' year' w =
      (Returned tt,
       {| disk := Stored (books ++ [b]); writes := writes w ++ [books ++ [b]];
          console := console w ++ [msg_added title']; stdin := stdin w |}) /\
    title b = title' /\ author b = author' /\ year b = year' /\
    status b = default_status /\
    id b ∉ map id books.
Proof.
  intros Hdisk. exists (new_record books title' author' year').
  split; [apply add_book_run; exact Hdisk|].
  do 4 (split; [reflexivity|]). simpl.
  intros Hin. apply list_elem_of_fmap in Hin as [b [Heq Hb]].
  apply next_id_above in Hb. lia.
Qed.

Lemma add_book_appends_one_record_witness :
  collection (disk (fresh_world (Stored two_books) [])) = Some two_books /\
  exists b,
    add_book "Solaris" "Lem" 1961 (fresh_world (Stored two_books) []) =
      (Returned tt,
       {| disk := Stored (two_books ++ [b]); writes := [] ++ [two_books ++ [b]];
          console := [] ++ [msg_added "Solaris"]; stdin := [] |}) /\
    title b = "Solaris" /\ author b = "Lem" /\ year b = 1961%Z /\
    status b = default_status /\
    id b ∉ map id two_books.
Proof.
  split; [reflexivity|].
  exact (add_book_appends_one_record (fresh_world (Stored two_books) []) two_books
           "Solaris" "Lem" 1961 eq_refl).
Defined.

End StoreMore.

(** ** Delete, display and update, one operation at a time *)

Section OperationsMore.

Context {py : builtins}.

Lemma display_books_run (w : world) (books : list book) :
  collection (disk w) = Some books ->
  display_books w =
  (Returned tt,
   {| disk := disk w; writes := writes w;
      console := console w ++ display_output books; stdin := stdin w |}).
Proof.
  intros Hdisk. unfold display_books, bind. rewrite load_books_run, Hdisk.
  destruct books as [|b books]; [reflexivity|].
  unfold print at 1. rewrite print_each_run. simpl.
  rewrite <- app_assoc. reflexivity.
Qed.

(** X4. On a store that can be read, display_books changes neither the file
    nor the log of writes and returns; with no record it prints the line
    that says so, otherwise a heading and one block for every record, in
    store order. *)
Theorem display_books_lists_the_store (w : world) (books : list book) :
  collection (disk w) = Some books ->
  fst (display_books w) = Returned tt /\
  disk (run display_books w) = disk w /\
  writes (run display_books w) = writes w /\
  (books = [] ->
   console (run display_books w) = console w ++ ["В библиотеке пока нет книг"]) /\
  (books <> [] ->
   console (run display_books w) =
     console w ++ "Список книг в библиотеке: " :: map show_book books).
Proof.
  intros Hdisk. unfold run. rewrite (display_books_run w books Hdisk). simpl.
  do 3 (split; [reflexivity|]). split.
  - intros ->. reflexivity.
  - intros Hne. destruct books; [contradiction | reflexivity].
Qed.

Lemma perform_unreadable (a : action) (w : world) :
  disk w = Garbled ->
  perform a w = (Raised JSONDecodeError, w).
Proof.
  intros Hdisk.
  destruct a; simpl;
    unfold add_book, delete_book, search_book, display_books, update_status, bind;
    rewrite load_books_run, Hdisk; reflexivity.
Qed.

(** X5. When the file is there but cannot be decoded, each of the five
    operations raises the decoder's error at once: nothing is printed and
    nothing is written, so the file is not overwritten. *)
Theorem unreadable_store_stops_every_operation (a : action) (w : world) :
  disk w = Garbled ->
  perform a w = (Raised JSONDecodeError, w).
Proof. apply perform_unreadable. Qed.

Lemma without_spec (book_id : Z) (books : list book) (b : book) :
  b ∈ without book_id books <-> b ∈ books /\ id b <> book_id.
Proof.
  unfold without. rewrite list_filter_elem, negb_true_iff, Z.eqb_neq. reflexivity.
Qed.

Lemma without_drops_id (book_id : Z) (books : list book) :
  book_id ∉ map id (without book_id books).
Proof.
  intros Hin. apply list_elem_of_fmap in Hin as [b [Heq Hb]].
  apply without_spec in Hb as [_ Hne]. congruence.
Qed.

Lemma without_absent (book_id : Z) (books : list book) :
  book_id ∉ map id books -> without book_id books = books.
Proof.
  induction books as [|b books IH]; [reflexivity|]. intros Hnot. simpl.
  destruct (Z.eqb_spec (id b) book_id) as [Heq|Hne]; simpl.
  - exfalso. apply Hnot. simpl. apply elem_of_cons. left. congruence.
  - f_equal. apply IH. intros Hin. apply Hnot. simpl.
    apply elem_of_cons. right. exact Hin.
Qed.

(** X6. Deleting an id that is on file returns after one write: the file then
    holds exactly the records with another id, in their order, so every
    record with that id is gone (also when several had it), at least one
    record less than before; the success line is printed. *)
Theorem delete_book_removes_the_id (w : world) (books : list book) (book_id : Z) :
  collection (disk w) = Some books ->
  book_id ∈ map id books ->
  exists kept,
    delete_book book_id w =
      (Returned tt,
       {| disk := Stored kept; writes := writes w ++ [kept];
          console := console w ++ [msg_deleted book_id]; stdin := stdin w |}) /\
    kept `sublist_of` books /\
    (forall b, b ∈ kept <-> b ∈ books /\ id b <> book_id) /\
    (book_id ∉ map id kept) /\
    length kept < length books.
Proof.
  intros Hdisk Hpresent. exists (without book_id books).
  split; [apply delete_book_present; assumption|].
  split; [apply list_filter_sublist|].
  split; [intros b; apply without_spec|].
  split; [apply without_drops_id|].
  pose proof (filter_length_le (fun book => negb (id book =? book_id)%Z) books) as Hle.
  fold (without book_id books) in Hle.
  destruct (Nat.eq_dec (length (without book_id books)) (length books)) as [Heq|Hne];
    [|lia].
  apply without_all_kept in Heq. contradiction.
Qed.

(** X7. Deleting the same id a second time, whether the first delete found it
    or not, only prints the not-found line: the file and the log of writes
    stay as the first delete left them. *)
Theorem delete_book_twice (w : world) (books : list book) (book_id : Z) :
  collection (disk w) = Some books ->
  delete_book book_id (run (delete_book book_id) w) =
  (Returned tt,
   {| disk := disk (run (delete_book book_id) w);
      writes := writes (run (delete_book book_id) w);
      console := console (run (delete_book book_id) w) ++ [msg_not_found book_id];
      stdin := stdin (run (delete_book book_id) w) |}).
Proof.
  intros Hdisk.
  destruct (decide (book_id ∈ map id books)) as [Hin|Hnot].
  - apply (delete_book_absent _ (without book_id books)).
    + unfold run. rewrite (delete_book_present w books book_id Hdisk Hin). reflexivity.
    + apply without_drops_id.
  - apply (delete_book_absent _ books); [|exact Hnot].
    unfold run. rewrite (delete_book_absent w books book_id Hdisk Hnot). exact Hdisk.
Qed.

(** X8. Adding a book and then deleting the id it was given brings back the
    collection that was on file before the add. *)
Theorem add_then_delete_restores (w : world) (books : list book)
    (title' author' : string) (year' : Z) (given : Z) :
  collection (disk w) = Some books ->
  newest_id (disk (run (add_book title' author' year') w)) = Some given ->
  collection (disk (run (delete_book given) (run (add_book title' author' year') w)))
    = Some books.
Proof.
  intros Hdisk Hgiven.
  rewrite (newest_id_after_add w books title' author' year' Hdisk) in Hgiven.
  inversion Hgiven; subst given.
  set (b := new_record books title' author' year').
  assert (Hw1 : collection (disk (run (add_book title' author' year') w)) =
                Some (books ++ [b])).
  { unfold run. rewrite (add_book_run w books title' author' year' Hdisk). reflexivity. }
  assert (Hfresh : next_id books ∉ map id books).
  { intros Hin. apply list_elem_of_fmap in Hin as [b0 [Heq Hb0]].
    apply next_id_above in Hb0. lia. }
  unfold run at 1.
  rewrite (delete_book_present _ (books ++ [b]) (next_id books) Hw1).
  - simpl. f_equal. unfold without. rewrite List.filter_app.
    fold (without (next_id books) books). rewrite (without_absent _ _ Hfresh).
    simpl. rewrite Z.eqb_refl. simpl. apply app_nil_r.
  - rewrite map_app. apply elem_of_app. right. simpl.
    apply list_elem_of_singleton. reflexivity.
Qed.

(** X9. Updating the status of an id that no record carries, whatever the
    status asked for, only prints the not-found line: nothing is written. *)
Theorem update_status_unknown_id (w : world) (books : list book)
    (book_id : Z) (new_status : string) :
  collection (disk w) = Some books ->
  book_id ∉ map id books ->
  update_status book_id new_status w =
  (Returned tt,
   {| disk := disk w; writes := writes w;
      console := console w ++ [msg_not_found book_id]; stdin := stdin w |}).
Proof.
  intros Hdisk Hnot. rewrite (update_status_run w books book_id new_status Hdisk).
  rewrite (first_with_id_absent book_id books Hnot). reflexivity.
Qed.

End OperationsMore.

(** ** Sessions of the five operations *)

Section SessionsMore.

Context {py : builtins}.

Lemma first_with_id_lookup (book_id : Z) (books : list book) (i : nat) (target : book) :
  first_with_id book_id books = Some (i, target) ->
  books !! i = Some target /\ id target = book_id.
Proof.
  unfold first_with_id. intros Hfind.
  apply list_find_Some in Hfind as (Hlook & Hid & _). split; assumption.
Qed.

Lemma ids_after_status_change (books : list book) (i : nat) (target : book)
    (new_status : string) :
  books !! i = Some target ->
  map id (<[i := set_status new_status target]> books) = map id books.
Proof.
  intros Hlook. change (map id) with (fmap (M := list) id).
  rewrite list_fmap_insert. apply list_insert_id.
  rewrite list_lookup_fmap, Hlook. reflexivity.
Qed.

Lemma ids_after_update (book_id : Z) (new_status : string) (books : list book) :
  map id (store_after (DoUpdate book_id new_status) books) = map id books.
Proof.
  simpl. destruct (first_with_id book_id books) as [[i target]|] eqn:Hfind;
    [|reflexivity].
  destruct (valid_status new_status); [|reflexivity].
  apply ids_after_status_change.
  apply first_with_id_lookup in Hfind as [Hlook _]. exact Hlook.
Qed.

(** One operation on a store that can be read: it returns, the file holds
    [store_after], and what it saved is [saved_by]. *)
Lemma perform_run (a : action) (w : world) (books : list book) :
  collection (disk w) = Some books ->
  exists printed,
    perform a w =
    (Returned tt,
     {| disk := match saved_by a books with
                | [] => disk w
                | _ :: _ => Stored (store_after a books)
                end;
        writes := writes w ++ saved_by a books;
        console := console w ++ printed;
        stdin := stdin w |}) /\
    collection (match saved_by a books with
                | [] => disk w
                | _ :: _ => Stored (store_after a books)
                end) = Some (store_after a books).
Proof.
  intros Hdisk. destruct a as [t a y|book_id|query| |book_id new_status]; simpl.
  - exists [msg_added t]. split; [apply add_book_run; exact Hdisk | reflexivity].
  - destruct (Nat.eqb_spec (length (without book_id books)) (length books))
      as [Hlen|Hlen].
    + apply without_all_kept in Hlen. exists [msg_not_found book_id].
      rewrite app_nil_r, (without_absent _ _ Hlen).
      split; [|exact Hdisk].
      rewrite (delete_book_absent w books book_id Hdisk Hlen).
      destruct w; reflexivity.
    + exists [msg_deleted book_id]. split; [|reflexivity].
      apply delete_book_present; [exact Hdisk|].
      destruct (decide (book_id ∈ map id books)) as [Hin|Hnot]; [exact Hin|].
      exfalso. apply Hlen, without_all_kept, Hnot.
  - exists (search_output (search_results query books)).
    rewrite app_nil_r. split; [|exact Hdisk].
    rewrite (search_book_run w books query Hdisk). destruct w; reflexivity.
  - exists (display_output books). rewrite app_nil_r. split; [|exact Hdisk].
    rewrite (display_books_run w books Hdisk). destruct w; reflexivity.
  - rewrite (update_status_run w books book_id new_status Hdisk).
    destruct (first_with_id book_id books) as [[i target]|].
    + destruct (valid_status new_status).
      * exists [msg_status_updated book_id new_status]. split; reflexivity.
      * exists [msg_bad_status]. rewrite app_nil_r. split; [|exact Hdisk].
        destruct w; reflexivity.
    + exists [msg_not_found book_id]. rewrite app_nil_r. split; [|exact Hdisk].
      destruct w; reflexivity.
Qed.

Lemma perform_all_step (a : action) (acts : list action) (w : world)
    (books : list book) :
  collection (disk w) = Some books ->
  perform_all (a :: acts) w = perform_all acts (run (perform a) w) /\
  collection (disk (run (perform a) w)) = Some (store_after a books) /\
  writes (run (perform a) w) = writes w ++ saved_by a books /\
  stdin (run (perform a) w) = stdin w.
Proof.
  intros Hdisk. destruct (perform_run a w books Hdisk) as (printed & Hrun & Hcoll).
  unfold run. simpl. unfold bind. rewrite Hrun. simpl. repeat split. exact Hcoll.
Qed.

(** An invariant of the collection that every operation keeps holds after
    any session on a store that can be read; the session itself returns and
    reads nothing from the user. *)
Lemma session_keeps (P : list book -> Prop) :
  (forall a books, P books -> P (store_after a books)) ->
  forall (acts : list action) (w : world) (books : list book),
    collection (disk w) = Some books ->
    P books ->
    exists books',
      fst (perform_all acts w) = Returned tt /\
      collection (disk (run (perform_all acts) w)) = Some books' /\
      stdin (run (perform_all acts) w) = stdin w /\
      P books'.
Proof.
  intros Hkeep acts. induction acts as [|a acts IH]; intros w books Hdisk HP.
  - exists books. repeat split; assumption.
  - destruct (perform_all_step a acts w books Hdisk) as (Hstep & Hcoll & _ & Hin).
    destruct (IH (run (perform a) w) (store_after a books) Hcoll (Hkeep a books HP))
      as (books' & Hret & Hcoll' & Hstdin & HP').
    exists books'. unfold run at 1 2. rewrite Hstep.
    repeat split; try assumption.
    fold (run (perform_all acts) (run (perform a) w)). rewrite Hstdin. exact Hin.
Qed.

(** X10. On a store that can be read, no session of the five operations raises:
    it returns, the file can still be read afterwards, and no line of the
    user's input is used. *)
Theorem readable_store_never_raises (acts : list action) (w : world)
    (books : list book) :
  collection (disk w) = Some books ->
  fst (perform_all acts w) = Returned tt /\
  (exists books', collection (disk (run (perform_all acts) w)) = Some books') /\
  stdin (run (perform_all acts) w) = stdin w.
Proof.
  intros Hdisk.
  destruct (session_keeps (fun _ => True) (fun _ _ _ => I) acts w books Hdisk I)
    as (books' & Hret & Hcoll & Hstdin & _).
  split; [exact Hret|]. split; [exists books'; exact Hcoll | exact Hstdin].
Qed.

Lemma ids_without_sublist (book_id : Z) (books : list book) :
  map id (without book_id books) `sublist_of` map id books.
Proof.
  induction books as [|b books IH]; simpl; [constructor|].
  destruct (negb (id b =? book_id)%Z); simpl;
    [apply sublist_skip | apply sublist_cons]; exact IH.
Qed.

Lemma unique_ids_kept (a : action) (books : list book) :
  NoDup (map id books) -> NoDup (map id (store_after a books)).
Proof.
  intros Hnodup. destruct a as [t a y|book_id|query| |book_id new_status].
  - apply new_id_fresh. exact Hnodup.
  - simpl. eapply sublist_NoDup; [exact Hnodup|]. apply ids_without_sublist.
  - exact Hnodup.
  - exact Hnodup.
  - rewrite ids_after_update. exact Hnodup.
Qed.

(** X11. If no two records on file share an id, then after any session of adds,
    deletes, searches, listings and status updates no two records share an
    id. *)
Theorem unique_ids_throughout (acts : list action) (w : world) (books : list book) :
  collection (disk w) = Some books ->
  NoDup (map id books) ->
  exists books',
    collection (disk (run (perform_all acts) w)) = Some books' /\
    NoDup (map id books').
Proof.
  intros Hdisk Hnodup.
  destruct (session_keeps (fun l => NoDup (map id l)) unique_ids_kept
              acts w books Hdisk Hnodup) as (books' & _ & Hcoll & _ & Hnodup').
  exists books'. split; assumption.
Qed.

End SessionsMore.

Section Ascending.

Context {py : builtins}.

Lemma sorted_sublist {A} (R : A -> A -> Prop) (l k : list A) :
  l `sublist_of` k -> StronglySorted R k -> StronglySorted R l.
Proof.
  intros Hsub. induction Hsub as [|x l k Hsub IH|x l k Hsub IH]; intros Hk.
  - constructor.
  - apply StronglySorted_inv in Hk as [Hk Hx]. constructor; [apply IH; exact Hk|].
    rewrite Forall_forall in *. intros y Hy. apply Hx.
    eapply elem_of_sublist; eassumption.
  - apply StronglySorted_inv in Hk as [Hk _]. apply IH. exact Hk.
Qed.

Lemma next_id_positive (books : list book) :
  Forall (fun i => (1 <= i)%Z) (map id books) -> (1 <= next_id books)%Z.
Proof.
  destruct books as [|b books]; simpl; [lia|]. intros Hall.
  apply Forall_cons in Hall as [Hb _].
  assert (id b < next_id (b :: books))%Z; [|simpl in *; lia].
  apply next_id_above, elem_of_cons. left. reflexivity.
Qed.

Lemma ids_ascending_kept (a : action) (books : list book) :
  ids_ascending books -> ids_ascending (store_after a books).
Proof.
  unfold ids_ascending. intros [Hsorted Hpos].
  destruct a as [t a y|book_id|query| |book_id new_status].
  - simpl. rewrite map_app. simpl. split.
    + apply StronglySorted_app_2; [|exact Hsorted|repeat constructor].
      intros i n Hi Hn. apply list_elem_of_singleton in Hn. subst n.
      apply list_elem_of_fmap in Hi as [b [-> Hb]]. apply next_id_above, Hb.
    + apply Forall_app. split; [exact Hpos|].
      constructor; [apply next_id_positive; exact Hpos | constructor].
  - simpl. pose proof (ids_without_sublist book_id books) as Hsub. split.
    + exact (sorted_sublist _ _ _ Hsub Hsorted).
    + rewrite Forall_forall in *. intros i Hi. apply Hpos.
      eapply elem_of_sublist; eassumption.
  - split; assumption.
  - split; assumption.
  - rewrite ids_after_update. split; assumption.
Qed.

(** X12. If the ids on file increase strictly along the file and are all at
    least 1, they still do after any session of the five operations. *)
Theorem ascending_ids_throughout (acts : list action) (w : world)
    (books : list book) :
  collection (disk w) = Some books ->
  ids_ascending books ->
  exists books',
    collection (disk (run (perform_all acts) w)) = Some books' /\
    ids_ascending books'.
Proof.
  intros Hdisk Hasc.
  destruct (session_keeps ids_ascending ids_ascending_kept acts w books Hdisk Hasc)
    as (books' & _ & Hcoll & _ & Hasc').
  exists books'. split; assumption.
Qed.

(** X13. A catalogue built by the program alone, starting without a file, has
    after any session a file whose ids increase strictly in store order,
    start at 1 or above and so are pairwise distinct. *)
Theorem catalogue_from_scratch_is_ascending (acts : list action) (w : world) :
  disk w = Missing ->
  exists books,
    collection (disk (run (perform_all acts) w)) = Some books /\
    StronglySorted Z.lt (map id books) /\
    Forall (fun i => (1 <= i)%Z) (map id books) /\
    NoDup (map id books).
Proof.
  intros Hdisk.
  assert (Hcoll : collection (disk w) = Some []) by (rewrite Hdisk; reflexivity).
  assert (Hasc : ids_ascending []) by (split; constructor).
  destruct (session_keeps (fun l => ids_ascending l /\ NoDup (map id l))
              (fun a l Hl => conj (ids_ascending_kept a l (proj1 Hl))
                                  (unique_ids_kept a l (proj2 Hl)))
              acts w [] Hcoll (conj Hasc (NoDup_nil_2 : NoDup (map id []))))
    as (books & _ & Hbooks & _ & [[Hsorted Hpos] Hnodup]).
  exists books. repeat split; assumption.
Qed.

Lemma saved_by_shape (a : action) (books : list book) :
  saved_by a books = [] \/ saved_by a books = [store_after a books].
Proof.
  destruct a as [t a y|book_id|query| |book_id new_status]; simpl; auto.
  - destruct (_ =? _)%nat; auto.
  - destruct (first_with_id book_id books) as [[i target]|]; auto.
    destruct (valid_status new_status); auto.
Qed.

Lemma perform_disk (a : action) (w : world) (books : list book) :
  collection (disk w) = Some books ->
  disk (run (perform a) w) =
  match last (saved_by a books) with
  | Some c => Stored c
  | None => disk w
  end.
Proof.
  intros Hdisk. destruct (perform_run a w books Hdisk) as (printed & Hrun & _).
  unfold run. rewrite Hrun. simpl.
  destruct (saved_by_shape a books) as [-> | ->]; reflexivity.
Qed.

(** X14. Over any session on a store that can be read, every operation saves at
    most once, the log of writes only grows, and the file holds the
    collection saved last (the file of the start when nothing was saved). *)
Theorem file_holds_last_save (acts : list action) (w : world) (books : list book) :
  collection (disk w) = Some books ->
  exists saved,
    writes (run (perform_all acts) w) = writes w ++ saved /\
    length saved <= length acts /\
    disk (run (perform_all acts) w) =
      match last saved with
      | Some c => Stored c
      | None => disk w
      end.
Proof.
  revert w books. induction acts as [|a acts IH]; intros w books Hdisk.
  - exists []. unfold run. simpl. rewrite app_nil_r. repeat split. lia.
  - destruct (perform_all_step a acts w books Hdisk) as (Hstep & Hcoll & Hwrites & _).
    destruct (IH (run (perform a) w) (store_after a books) Hcoll)
      as (saved & Hlog & Hlen & Hfile).
    assert (Hrun : run (perform_all (a :: acts)) w =
                   run (perform_all acts) (run (perform a) w)).
    { unfold run at 1. rewrite Hstep. reflexivity. }
    exists (saved_by a books ++ saved). rewrite Hrun.
    split; [rewrite Hlog, Hwrites, app_assoc; reflexivity|]. split.
    + rewrite length_app. simpl.
      destruct (saved_by_shape a books) as [-> | ->]; simpl; lia.
    + rewrite Hfile, last_app, (perform_disk a w books Hdisk).
      destruct (last saved); reflexivity.
Qed.

End Ascending.

(** ** Update twice, and search after add *)

Section UpdateAndSearchMore.

Context {py : builtins}.

Lemma first_with_id_after_update (book_id : Z) (new_status : string)
    (books : list book) (i : nat) (target : book) :
  first_with_id book_id books = Some (i, target) ->
  first_with_id book_id (<[i := set_status new_status target]> books) =
    Some (i, set_status new_status target).
Proof.
  unfold first_with_id. intros Hfind.
  apply list_find_Some in Hfind as (Hlook & Hid & Hfirst).
  apply list_find_Some. split; [|split].
  - apply list_lookup_insert_eq. apply lookup_lt_Some in Hlook. exact Hlook.
  - exact Hid.
  - intros j y Hj Hlt. rewrite list_lookup_insert_ne in Hj by lia.
    exact (Hfirst j y Hj Hlt).
Qed.

Lemma store_after_update_twice (book_id : Z) (new_status : string)
    (books : list book) :
  store_after (DoUpdate book_id new_status)
    (store_after (DoUpdate book_id new_status) books) =
  store_after (DoUpdate book_id new_status) books.
Proof.
  cbn [store_after].
  destruct (first_with_id book_id books) as [[i target]|] eqn:Hfind.
  - destruct (valid_status new_status) eqn:Hvalid.
    + rewrite (first_with_id_after_update _ _ _ _ _ Hfind).
      apply list_insert_insert_eq.
    + rewrite Hfind. reflexivity.
  - rewrite Hfind. reflexivity.
Qed.

(** X15. Asking for the same status change a second time changes nothing more:
    the file after the second update_status is the file after the first. *)
Theorem update_status_twice (w : world) (books : list book)
    (book_id : Z) (new_status : string) :
  collection (disk w) = Some books ->
  disk (run (update_status book_id new_status)
            (run (update_status book_id new_status) w)) =
  disk (run (update_status book_id new_status) w).
Proof.
  intros Hdisk.
  pose proof (perform_all_step (DoUpdate book_id new_status) [] w books Hdisk)
    as (_ & Hcoll & _ & _).
  pose proof (perform_disk (DoUpdate book_id new_status) w books Hdisk) as Hfile1.
  pose proof (perform_disk (DoUpdate book_id new_status) _ _ Hcoll) as Hfile2.
  cbn [perform] in Hcoll, Hfile1, Hfile2. rewrite Hfile2, Hfile1.
  cbn [saved_by store_after].
  destruct (first_with_id book_id books) as [[i target]|] eqn:Hfind.
  - destruct (valid_status new_status) eqn:Hvalid.
    + rewrite (first_with_id_after_update _ _ _ _ _ Hfind).
      cbn [last]. rewrite list_insert_insert_eq. reflexivity.
    + rewrite Hfind. reflexivity.
  - rewrite Hfind. reflexivity.
Qed.

Lemma str_in_refl (s : string) : str_in s s = true.
Proof.
  apply str_in_substring. exists EmptyString, EmptyString. simpl.
  induction s as [|c s IH]; simpl; congruence.
Qed.

Lemma str_in_empty (s : string) : str_in EmptyString s = true.
Proof. apply str_in_substring. exists EmptyString, s. reflexivity. Qed.

(** X16. A book that was just added is found by a search for its title, for its
    author and for its year written in decimal, whatever the table of
    lower-case letters. *)
Theorem added_book_is_found (w : world) (books : list book)
    (title' author' : string) (year' : Z) :
  collection (disk w) = Some books ->
  exists saved b,
    collection (disk (run (add_book title' author' year') w)) = Some saved /\
    last saved = Some b /\
    title b = title' /\ author b = author' /\ year b = year' /\
    b ∈ search_results title' saved /\
    b ∈ search_results author' saved /\
    b ∈ search_results (str_of_int year') saved.
Proof.
  intros Hdisk. set (b := new_record books title' author' year').
  exists (books ++ [b]), b. unfold run.
  rewrite (add_book_run w books title' author' year' Hdisk). simpl.
  split; [reflexivity|]. split; [apply last_snoc|].
  do 3 (split; [reflexivity|]).
  assert (Hb : b ∈ books ++ [b]).
  { apply elem_of_app. right. apply list_elem_of_singleton. reflexivity. }
  unfold search_results. rewrite !list_filter_elem. unfold search_test. simpl.
  rewrite !str_in_refl, String.eqb_refl, !orb_true_r. simpl. tauto.
Qed.

(** X17. When lower-casing the empty string gives the empty string, as it does
    in Python, a search with the empty query finds every record. *)
Theorem empty_query_finds_all (books : list book) :
  str_lower "" = "" ->
  search_results "" books = books.
Proof.
  intros Hlower. unfold search_results.
  induction books as [|b books IH]; [reflexivity|]. simpl.
  unfold search_test at 1. rewrite Hlower, str_in_empty. simpl. f_equal. exact IH.
Qed.

End UpdateAndSearchMore.

(** ** The menu *)

Section MenuMore.

Context {py : builtins}.

Ltac enter_menu Hstdin :=
  rewrite (main_turn_choice _ _ _ Hstdin);
  unfold dispatch, bind, try_except, input_int, bind, input;
  cbn [String.eqb Ascii.eqb Bool.eqb stdin disk writes console].

(** X18. A choice that is none of "1" to "6" (the empty line and a digit with a
    space included) prints the no-such-action line and the loop goes on:
    the file is not touched and only that one line of input is used. *)
Theorem unknown_choice_goes_on (w : world) (choice : string) (rest : list string) :
  stdin w = choice :: rest ->
  choice ∉ menu_choices ->
  main_turn w =
  (Returned true,
   {| disk := disk w; writes := writes w;
      console := console w ++ menu ++
                 [ask_choice; "*Такого действия пока нет, попробуйте другое*"];
      stdin := rest |}).
Proof.
  intros Hstdin Hnot.
  assert (Hne : forall c, In c menu_choices -> String.eqb choice c = false).
  { intros c Hc. apply String.eqb_neq. intros ->.
    apply Hnot, list_elem_of_In, Hc. }
  rewrite (main_turn_choice _ _ _ Hstdin). unfold dispatch.
  rewrite (Hne "1"), (Hne "2"), (Hne "3"), (Hne "4"), (Hne "5"), (Hne "6")
    by (simpl; tauto).
  unfold bind, print, ret. cbn [stdin disk writes console].
  rewrite <- !app_assoc. reflexivity.
Qed.

(** X19. In the update action an id that [int] rejects is reported at once: the
    status is not asked for, so the line after the id is left for the next
    menu prompt; the file is not touched and the loop goes on. *)
Theorem update_with_bad_id_skips_status (w : world) (bad : string)
    (rest : list string) :
  stdin w = "5" :: bad :: rest ->
  int_of_str bad = None ->
  main_turn w =
  (Returned true,
   {| disk := disk w; writes := writes w;
      console := console w ++ menu ++
                 [ask_choice; "Введите ID книги для изменения статуса: ";
                  "Ошибка: введите корректный числовой ID."];
      stdin := rest |}).
Proof.
  intros Hstdin Hbad. enter_menu Hstdin.
  rewrite Hbad. unfold raise, print, ret.
  cbn [is_ValueError stdin disk writes console].
  rewrite <- !app_assoc. reflexivity.
Qed.

(** X20. With a file that cannot be decoded, the delete action catches the
    decoder's error with its [except ValueError]: the user is told to enter
    a correct id, the file stays as it is and the loop goes on. *)
Theorem unreadable_store_reported_as_bad_id_on_delete (w : world) (line : string)
    (book_id : Z) (rest : list string) :
  disk w = Garbled ->
  int_of_str line = Some book_id ->
  stdin w = "2" :: line :: rest ->
  main_turn w =
  (Returned true,
   {| disk := Garbled; writes := writes w;
      console := console w ++ menu ++
                 [ask_choice; "Введите id книги, которую хотите удалить: ";
                  "Ошибка: введите корректный ID."];
      stdin := rest |}).
Proof.
  intros Hdisk Hline Hstdin. enter_menu Hstdin. rewrite Hline.
  unfold ret at 1. cbv beta iota. cbn [stdin disk writes console].
  change (delete_book book_id) with (perform (DoDelete book_id)).
  match goal with
  | |- context [perform (DoDelete book_id) ?w1] =>
      rewrite (perform_unreadable (DoDelete book_id) w1 Hdisk)
  end.
  unfold print, ret. cbn [is_ValueError stdin disk writes console].
  rewrite Hdisk, <- !app_assoc. reflexivity.
Qed.

(** X21. The update action does the same with a file that cannot be decoded,
    after it has asked for the id and for the status. *)
Theorem unreadable_store_reported_as_bad_id_on_update (w : world) (line : string)
    (book_id : Z) (new_status : string) (rest : list string) :
  disk w = Garbled ->
  int_of_str line = Some book_id ->
  stdin w = "5" :: line :: new_status :: rest ->
  main_turn w =
  (Returned true,
   {| disk := Garbled; writes := writes w;
      console := console w ++ menu ++
                 [ask_choice; "Введите ID книги для изменения статуса: ";
                  "Введите новый статус (в наличии/выдана): ";
                  "Ошибка: введите корректный числовой ID."];
      stdin := rest |}).
Proof.
  intros Hdisk Hline Hstdin. enter_menu Hstdin. rewrite Hline.
  unfold ret at 1. cbv beta iota. cbn [stdin disk writes console].
  change (update_status book_id new_status)
    with (perform (DoUpdate book_id new_status)).
  match goal with
  | |- context [perform (DoUpdate book_id new_status) ?w1] =>
      rewrite (perform_unreadable (DoUpdate book_id new_status) w1 Hdisk)
  end.
  unfold print, ret. cbn [is_ValueError stdin disk writes console].
  rewrite Hdisk, <- !app_assoc. reflexivity.
Qed.

End MenuMore.

Section MenuEnds.

Context {py : builtins}.

Ltac enter_menu Hstdin :=
  rewrite (main_turn_choice _ _ _ Hstdin);
  unfold dispatch, bind, try_except, input_int, bind, input;
  cbn [String.eqb Ascii.eqb Bool.eqb stdin disk writes console].

(** X22. With a file that cannot be decoded, the display action ends the
    session: the decoder's error leaves [main] uncaught, the file is left
    as it is. *)
Theorem unreadable_store_ends_session_on_display (w : world) (rest : list string)
    (fuel : nat) :
  disk w = Garbled ->
  stdin w = "4" :: rest ->
  main_loop (S fuel) w =
  Some (Raised JSONDecodeError,
        {| disk := Garbled; writes := writes w;
           console := console w ++ menu ++ [ask_choice]; stdin := rest |}).
Proof.
  intros Hdisk Hstdin. cbn [main_loop]. enter_menu Hstdin.
  change display_books with (perform DoDisplay).
  match goal with
  | |- context [perform DoDisplay ?w1] =>
      rewrite (perform_unreadable DoDisplay w1 Hdisk)
  end.
  rewrite Hdisk. reflexivity.
Qed.

(** X23. Choosing "6" prints the farewell and ends [main] normally: the lines
    typed after it are not read and the file is not touched. *)
Theorem exit_ends_session (w : world) (rest : list string) (fuel : nat) :
  stdin w = "6" :: rest ->
  main_loop (S fuel) w =
  Some (Returned tt,
        {| disk := disk w; writes := writes w;
           console := console w ++ menu ++ [ask_choice; farewell];
           stdin := rest |}).
Proof.
  intros Hstdin. cbn [main_loop]. enter_menu Hstdin.
  unfold print, ret. cbn [stdin disk writes console].
  rewrite <- !app_assoc. reflexivity.
Qed.

(** X24. When the user's input is at its end at the menu prompt, the session
    ends with the end-of-file error of [input]; the file is not touched. *)
Theorem end_of_input_ends_session (w : world) (fuel : nat) :
  stdin w = [] ->
  main_loop (S fuel) w =
  Some (Raised EOFError,
        {| disk := disk w; writes := writes w;
           console := console w ++ menu ++ [ask_choice]; stdin := [] |}).
Proof.
  intros Hstdin. cbn [main_loop]. unfold main_turn, bind.
  rewrite print_each_run. unfold input. cbn [stdin disk writes console].
  rewrite Hstdin, map_id, <- app_assoc. reflexivity.
Qed.

Lemma main_loop_more_fuel (fuel fuel' : nat) (w : world)
    (result : outcome unit * world) :
  main_loop fuel w = Some result -> fuel <= fuel' ->
  main_loop fuel' w = Some result.
Proof.
  revert fuel' w; induction fuel as [|fuel IH]; intros fuel' w Hrun Hle;
    [discriminate|].
  destruct fuel' as [|fuel']; [lia|]. simpl in *.
  destruct (main_turn w) as [[[|]|e] w1]; try exact Hrun.
  apply IH; [exact Hrun | lia].
Qed.

(** X25. On every finite input [main] ends, with the exit or with an exception:
    one turn more than there are lines of input is always enough, and more
    turns give the same end. *)
Theorem main_always_ends (w : world) (fuel : nat) :
  length (stdin w) < fuel ->
  exists result,
    main (S (length (stdin w))) w = Some result /\
    main fuel w = Some result.
Proof.
  intros Hfuel. unfold main, print. cbv beta iota.
  set (w1 := {| disk := disk w; writes := writes w;
                console := console w ++ _; stdin := stdin w |}).
  destruct (main_loop_ends (S (length (stdin w))) w1) as [result Hrun];
    [simpl; lia|].
  exists result. split; [exact Hrun|].
  apply (main_loop_more_fuel (S (length (stdin w)))); [exact Hrun | lia].
Qed.

(** X26. Through the menu, the add action with a year that [int] accepts uses
    four lines of input, appends the new record to a store that can be
    read, with one write, and the loop goes on. *)
Theorem add_through_menu (w : world) (books : list book)
    (title' author' line : string) (year' : Z) (rest : list string) :
  stdin w = "1" :: title' :: author' :: line :: rest ->
  int_of_str line = Some year' ->
  collection (disk w) = Some books ->
  main_turn w =
  (Returned true,
   {| disk := Stored (books ++ [new_record books title' author' year']);
      writes := writes w ++ [books ++ [new_record books title' author' year']];
      console := console w ++ menu ++
                 [ask_choice; "Введите название книги: ";
                  "Введите автора книги: "; "Введите год издания: ";
                  msg_added title'];
      stdin := rest |}).
Proof.
  intros Hstdin Hline Hdisk. enter_menu Hstdin. rewrite Hline.
  unfold ret at 1. cbv beta iota.
  match goal with
  | |- context [add_book title' author' year' ?w1] =>
      rewrite (add_book_run w1 books title' author' year' Hdisk)
  end.
  unfold ret. cbn [stdin disk writes console].
  rewrite <- !app_assoc. reflexivity.
Qed.

End MenuEnds.

(** ** The properties at work on a shelf of two books *)

Lemma shelf_ids_distinct : NoDup (map id two_books).
Proof.
  apply NoDup_cons_2; [|apply NoDup_singleton].
  intros Hin. apply list_elem_of_singleton in Hin. discriminate Hin.
Defined.

Lemma shelf_ids_ascending : ids_ascending two_books.
Proof.
  split.
  - repeat constructor.
  - repeat constructor; intros Hgt; discriminate Hgt.
Defined.

Lemma shelf_has_2 : 2%Z ∈ map id two_books.
Proof.
  simpl. apply elem_of_cons. right. apply elem_of_cons. left. reflexivity.
Defined.

Lemma shelf_lacks_7 : 7%Z ∉ map id two_books.
Proof.
  intros Hin. simpl in Hin.
  repeat (apply elem_of_cons in Hin as [Hin|Hin]; [discriminate Hin|]).
  inversion Hin.
Defined.

Lemma display_books_lists_the_store_witness :
  collection (disk shelf) = Some two_books /\
  fst (display_books shelf) = Returned tt /\
  disk (run display_books shelf) = disk shelf /\
  writes (run display_books shelf) = writes shelf /\
  (two_books = [] ->
   console (run display_books shelf) =
     console shelf ++ ["В библиотеке пока нет книг"]) /\
  (two_books <> [] ->
   console (run display_books shelf) =
     console shelf ++ "Список книг в библиотеке: " :: map show_book two_books).
Proof.
  split; [reflexivity|].
  exact (display_books_lists_the_store shelf two_books eq_refl).
Defined.

Lemma unreadable_store_stops_every_operation_witness :
  disk (fresh_world Garbled []) = Garbled /\
  perform (DoDelete 1) (fresh_world Garbled []) =
    (Raised JSONDecodeError, fresh_world Garbled []).
Proof.
  split; [reflexivity|].
  exact (unreadable_store_stops_every_operation (DoDelete 1) (fresh_world Garbled [])
           eq_refl).
Defined.

Lemma delete_book_removes_the_id_witness :
  (collection (disk shelf) = Some two_books /\ 2%Z ∈ map id two_books) /\
  exists kept,
    delete_book 2 shelf =
      (Returned tt,
       {| disk := Stored kept; writes := writes shelf ++ [kept];
          console := console shelf ++ [msg_deleted 2]; stdin := stdin shelf |}) /\
    kept `sublist_of` two_books /\
    (forall b, b ∈ kept <-> b ∈ two_books /\ id b <> 2%Z) /\
    (2%Z ∉ map id kept) /\
    length kept < length two_books.
Proof.
  split; [split; [reflexivity | exact shelf_has_2]|].
  exact (delete_book_removes_the_id shelf two_books 2 eq_refl shelf_has_2).
Defined.

Lemma delete_book_twice_witness :
  collection (disk shelf) = Some two_books /\
  delete_book 2 (run (delete_book 2) shelf) =
  (Returned tt,
   {| disk := disk (run (delete_book 2) shelf);
      writes := writes (run (delete_book 2) shelf);
      console := console (run (delete_book 2) shelf) ++ [msg_not_found 2];
      stdin := stdin (run (delete_book 2) shelf) |}).
Proof.
  split; [reflexivity|].
  exact (delete_book_twice shelf two_books 2 eq_refl).
Defined.

Lemma add_then_delete_restores_witness :
  (collection (disk shelf) = Some two_books /\
   newest_id (disk (run (add_book "Solaris" "Lem" 1961) shelf)) = Some 3%Z) /\
  collection (disk (run (delete_book 3) (run (add_book "Solaris" "Lem" 1961) shelf)))
    = Some two_books.
Proof.
  split; [split; reflexivity|].
  exact (add_then_delete_restores shelf two_books "Solaris" "Lem" 1961 3
           eq_refl eq_refl).
Defined.

Lemma update_status_unknown_id_witness :
  (collection (disk shelf) = Some two_books /\ 7%Z ∉ map id two_books) /\
  update_status 7 "выдана" shelf =
  (Returned tt,
   {| disk := disk shelf; writes := writes shelf;
      console := console shelf ++ [msg_not_found 7]; stdin := stdin shelf |}).
Proof.
  split; [split; [reflexivity | exact shelf_lacks_7]|].
  exact (update_status_unknown_id shelf two_books 7 "выдана" eq_refl shelf_lacks_7).
Defined.

Lemma readable_store_never_raises_witness :
  collection (disk shelf) = Some two_books /\
  fst (perform_all sample_session shelf) = Returned tt /\
  (exists books', collection (disk (run (perform_all sample_session) shelf)) =
                  Some books') /\
  stdin (run (perform_all sample_session) shelf) = stdin shelf.
Proof.
  split; [reflexivity|].
  exact (readable_store_never_raises sample_session shelf two_books eq_refl).
Defined.

Lemma unique_ids_throughout_witness :
  (collection (disk shelf) = Some two_books /\ NoDup (map id two_books)) /\
  exists books',
    collection (disk (run (perform_all sample_session) shelf)) = Some books' /\
    NoDup (map id books').
Proof.
  split; [split; [reflexivity | exact shelf_ids_distinct]|].
  exact (unique_ids_throughout sample_session shelf two_books eq_refl
           shelf_ids_distinct).
Defined.

Lemma ascending_ids_throughout_witness :
  (collection (disk shelf) = Some two_books /\ ids_ascending two_books) /\
  exists books',
    collection (disk (run (perform_all sample_session) shelf)) = Some books' /\
    ids_ascending books'.
Proof.
  split; [split; [reflexivity | exact shelf_ids_ascending]|].
  exact (ascending_ids_throughout sample_session shelf two_books eq_refl
           shelf_ids_ascending).
Defined.

Lemma catalogue_from_scratch_is_ascending_witness :
  disk (fresh_world Missing []) = Missing /\
  exists books,
    collection (disk (run (perform_all sample_session) (fresh_world Missing []))) =
      Some books /\
    StronglySorted Z.lt (map id books) /\
    Forall (fun i => (1 <= i)%Z) (map id books) /\
    NoDup (map id books).
Proof.
  split; [reflexivity|].
  exact (catalogue_from_scratch_is_ascending sample_session (fresh_world Missing [])
           eq_refl).
Defined.

Lemma file_holds_last_save_witness :
  collection (disk shelf) = Some two_books /\
  exists saved,
    writes (run (perform_all sample_session) shelf) = writes shelf ++ saved /\
    length saved <= length sample_session /\
    disk (run (perform_all sample_session) shelf) =
      match last saved with
      | Some c => Stored c
      | None => disk shelf
      end.
Proof.
  split; [reflexivity|].
  exact (file_holds_last_save sample_session shelf two_books eq_refl).
Defined.

Lemma update_status_twice_witness :
  collection (disk shelf) = Some two_books /\
  disk (run (update_status 2 "выдана") (run (update_status 2 "выдана") shelf)) =
  disk (run (update_status 2 "выдана") shelf).
Proof.
  split; [reflexivity|].
  exact (update_status_twice shelf two_books 2 "выдана" eq_refl).
Defined.

Lemma added_book_is_found_witness :
  collection (disk shelf) = Some two_books /\
  exists saved b,
    collection (disk (run (add_book "Solaris" "Lem" 1961) shelf)) = Some saved /\
    last saved = Some b /\
    title b = "Solaris" /\ author b = "Lem" /\ year b = 1961%Z /\
    b ∈ search_results "Solaris" saved /\
    b ∈ search_results "Lem" saved /\
    b ∈ search_results (str_of_int 1961) saved.
Proof.
  split; [reflexivity|].
  exact (added_book_is_found shelf two_books "Solaris" "Lem" 1961 eq_refl).
Defined.

Lemma empty_query_finds_all_witness :
  str_lower "" = "" /\ search_results "" two_books = two_books.
Proof.
  split; [reflexivity|].
  exact (empty_query_finds_all two_books eq_refl).
Defined.

Lemma choice_not_on_menu : "7" ∉ menu_choices.
Proof.
  intros Hin. unfold menu_choices in Hin.
  repeat (apply elem_of_cons in Hin as [Hin|Hin]; [discriminate Hin|]).
  inversion Hin.
Defined.

Lemma unknown_choice_goes_on_witness :
  (stdin (typed ["7"; "6"] Missing) = ["7"; "6"] /\ "7" ∉ menu_choices) /\
  main_turn (typed ["7"; "6"] Missing) =
  (Returned true,
   {| disk := Missing; writes := [];
      console := [] ++ menu ++
                 [ask_choice; "*Такого действия пока нет, попробуйте другое*"];
      stdin := ["6"] |}).
Proof.
  split; [split; [reflexivity | exact choice_not_on_menu]|].
  exact (unknown_choice_goes_on (typed ["7"; "6"] Missing) "7" ["6"] eq_refl
           choice_not_on_menu).
Defined.

Lemma update_with_bad_id_skips_status_witness :
  (stdin (typed ["5"; "two"; "выдана"] (Stored two_books)) = ["5"; "two"; "выдана"] /\
   int_of_str "two" = None) /\
  main_turn (typed ["5"; "two"; "выдана"] (Stored two_books)) =
  (Returned true,
   {| disk := Stored two_books; writes := [];
      console := [] ++ menu ++
                 [ask_choice; "Введите ID книги для изменения статуса: ";
                  "Ошибка: введите корректный числовой ID."];
      stdin := ["выдана"] |}).
Proof.
  split; [split; reflexivity|].
  exact (update_with_bad_id_skips_status (typed ["5"; "two"; "выдана"] (Stored two_books))
           "two" ["выдана"] eq_refl eq_refl).
Defined.

Lemma unreadable_store_reported_as_bad_id_on_delete_witness :
  (disk (typed ["2"; "1"; "6"] Garbled) = Garbled /\ int_of_str "1" = Some 1%Z /\
   stdin (typed ["2"; "1"; "6"] Garbled) = ["2"; "1"; "6"]) /\
  main_turn (typed ["2"; "1"; "6"] Garbled) =
  (Returned true,
   {| disk := Garbled; writes := [];
      console := [] ++ menu ++
                 [ask_choice; "Введите id книги, которую хотите удалить: ";
                  "Ошибка: введите корректный ID."];
      stdin := ["6"] |}).
Proof.
  split; [split; [reflexivity | split; reflexivity]|].
  exact (unreadable_store_reported_as_bad_id_on_delete (typed ["2"; "1"; "6"] Garbled)
           "1" 1 ["6"] eq_refl eq_refl eq_refl).
Defined.

Lemma unreadable_store_reported_as_bad_id_on_update_witness :
  (disk (typed ["5"; "1"; "выдана"; "6"] Garbled) = Garbled /\
   int_of_str "1" = Some 1%Z /\
   stdin (typed ["5"; "1"; "выдана"; "6"] Garbled) = ["5"; "1"; "выдана"; "6"]) /\
  main_turn (typed ["5"; "1"; "выдана"; "6"] Garbled) =
  (Returned true,
   {| disk := Garbled; writes := [];
      console := [] ++ menu ++
                 [ask_choice; "Введите ID книги для изменения статуса: ";
                  "Введите новый статус (в наличии/выдана): ";
                  "Ошибка: введите корректный числовой ID."];
      stdin := ["6"] |}).
Proof.
  split; [split; [reflexivity | split; reflexivity]|].
  exact (unreadable_store_reported_as_bad_id_on_update
           (typed ["5"; "1"; "выдана"; "6"] Garbled)
           "1" 1 "выдана" ["6"] eq_refl eq_refl eq_refl).
Defined.

Lemma unreadable_store_ends_session_on_display_witness :
  (disk (typed ["4"; "6"] Garbled) = Garbled /\
   stdin (typed ["4"; "6"] Garbled) = ["4"; "6"]) /\
  main_loop 3 (typed ["4"; "6"] Garbled) =
  Some (Raised JSONDecodeError,
        {| disk := Garbled; writes := [];
           console := [] ++ menu ++ [ask_choice]; stdin := ["6"] |}).
Proof.
  split; [split; reflexivity|].
  exact (unreadable_store_ends_session_on_display (typed ["4"; "6"] Garbled) ["6"] 2
           eq_refl eq_refl).
Defined.

Lemma exit_ends_session_witness :
  stdin (typed ["6"; "1"] Missing) = ["6"; "1"] /\
  main_loop 1 (typed ["6"; "1"] Missing) =
  Some (Returned tt,
        {| disk := Missing; writes := [];
           console := [] ++ menu ++ [ask_choice; farewell]; stdin := ["1"] |}).
Proof.
  split; [reflexivity|].
  exact (exit_ends_session (typed ["6"; "1"] Missing) ["1"] 0 eq_refl).
Defined.

Lemma end_of_input_ends_session_witness :
  stdin (typed [] (Stored two_books)) = [] /\
  main_loop 1 (typed [] (Stored two_books)) =
  Some (Raised EOFError,
        {| disk := Stored two_books; writes := [];
           console := [] ++ menu ++ [ask_choice]; stdin := [] |}).
Proof.
  split; [reflexivity|].
  exact (end_of_input_ends_session (typed [] (Stored two_books)) 0 eq_refl).
Defined.

Lemma main_always_ends_witness :
  length (stdin (typed ["4"; "7"] Missing)) < 5 /\
  exists result,
    main (S (length (stdin (typed ["4"; "7"] Missing)))) (typed ["4"; "7"] Missing) =
      Some result /\
    main 5 (typed ["4"; "7"] Missing) = Some result.
Proof.
  assert (Hfuel : length (stdin (typed ["4"; "7"] Missing)) < 5) by (simpl; lia).
  split; [exact Hfuel|].
  exact (main_always_ends (typed ["4"; "7"] Missing) 5 Hfuel).
Defined.

Lemma add_through_menu_witness :
  (stdin (typed ["1"; "Solaris"; "Lem"; "1961"; "6"] (Stored two_books)) =
     ["1"; "Solaris"; "Lem"; "1961"; "6"] /\
   int_of_str "1961" = Some 1961%Z /\
   collection (disk (typed ["1"; "Solaris"; "Lem"; "1961"; "6"] (Stored two_books))) =
     Some two_books) /\
  main_turn (typed ["1"; "Solaris"; "Lem"; "1961"; "6"] (Stored two_books)) =
  (Returned true,
   {| disk := Stored (two_books ++ [new_record two_books "Solaris" "Lem" 1961]);
      writes := [] ++ [two_books ++ [new_record two_books "Solaris" "Lem" 1961]];
      console := [] ++ menu ++
                 [ask_choice; "Введите название книги: ";
                  "Введите автора книги: "; "Введите год издания: ";
                  msg_added "Solaris"];
      stdin := ["6"] |}).
Proof.
  split; [split; [reflexivity | split; reflexivity]|].
  exact (add_through_menu (typed ["1"; "Solaris"; "Lem"; "1961"; "6"] (Stored two_books))
           two_books "Solaris" "Lem" "1961" 1961 ["6"] eq_refl eq_refl eq_refl).
Defined.
